(** * abipy: the RTA.nc transport-data accessor, the lessons variable
    database and the benchmark option filter

  A shallow embedding of

  - [abipy/eph/rta.py]: [RtaReader], [RtaFile], [RtaRobot];
  - [abipy/lessons/lesson_helper_functions.py]: [get_abinit_variables];
  - [abipy/benchmarks/__init__.py]: [accept_mpi_omp];

  followed by the properties of the specification that concern them.

  Conventions.  Python [int] is [Z]; a numpy [float64] is a binary64
  [float] of the kernel, so every product, quotient and comparison below
  rounds and compares as the interpreter does.  A raised exception is the
  [Raise] branch of [result]; statements of a Python body are sequenced
  with the bind of that monad, so the first failing statement decides the
  exception, as in Python.  Named netCDF dimensions and variables live in
  finite maps keyed by their names. *)

From Stdlib Require Import ZArith List Ascii Floats Sorted Permutation Lia Bool.
From stdpp Require Import gmap strings list sorting pretty.

Set Warnings "-inexact-float,-register-all".

#[local] Open Scope Z_scope.

(** ** Python: exceptions and sequence indexing *)

Module Py.

(** The exception classes of the specification's taxonomy.  [ValueError]
    carries its message; [DomainError] of the specification is the
    [ValueError] that the interpolator raises for a query outside its
    range. *)
Inductive exn : Type :=
| NotFoundError
| SchemaError (name : string)
| ClosedError
| IndexError
| KeyError (key : string)
| TypeError
| ValueError (msg : string).

Inductive result (A : Type) : Type :=
| Ok (a : A)
| Raise (e : exn).
Arguments Ok {A} a.
Arguments Raise {A} e.

#[export] Instance result_ret : MRet result := fun _ a => Ok a.
#[export] Instance result_bind : MBind result := fun _ _ k m =>
  match m with
  | Ok a => k a
  | Raise e => Raise e
  end.
#[export] Instance result_fmap : FMap result := fun _ _ g m =>
  match m with
  | Ok a => Ok (g a)
  | Raise e => Raise e
  end.

Definition is_ok {A} (m : result A) : bool :=
  match m with Ok _ => true | Raise _ => false end.

Definition of_option {A} (e : exn) (o : option A) : result A :=
  match o with Some a => Ok a | None => Raise e end.

(** [l[k]] for an integer [k]: a negative index counts from the end, and
    anything outside [-len, len) raises [IndexError]. *)
Definition index {A} (l : list A) (k : Z) : result A :=
  let n := Z.of_nat (length l) in
  let k' := if k <? 0 then k + n else k in
  if (0 <=? k') && (k' <? n)
  then of_option IndexError (l !! Z.to_nat k')
  else Raise IndexError.

(** [for x in xs: out.append(f(x))]: the loop stops at the first
    exception. *)
Fixpoint for_each {A B} (f : A -> result B) (xs : list A) : result (list B) :=
  match xs with
  | [] => Ok []
  | x :: xs' => b ← f x; bs ← for_each f xs'; Ok (b :: bs)
  end.

(** [list.sort(key=key)] on integer keys.  The built-in sort is stable;
    a stable sort has one possible result, which straight insertion
    (the built-in's own strategy on short runs) computes: an element is
    put in front of the first one whose key is not smaller than its own. *)
Section Sort.
Context {A : Type} (key : A -> Z).

Fixpoint insert (a : A) (l : list A) : list A :=
  match l with
  | [] => [a]
  | b :: l' => if key b <? key a then b :: insert a l' else a :: b :: l'
  end.

Fixpoint sort (l : list A) : list A :=
  match l with
  | [] => []
  | a :: l' => insert a (sort l')
  end.
End Sort.

End Py.
Export Py.

(** ** numpy: n-dimensional arrays *)

Module np.

(** An array is a scalar item (rank 0) or a sequence of sub-arrays along
    its first axis. *)
Inductive ndarray (A : Type) : Type :=
| Item (x : A)
| Arr (l : list (ndarray A)).
Arguments Item {A} x.
Arguments Arr {A} l.

(** One entry of a subscript tuple: an integer, or the full slice [:]. *)
Inductive subscript : Type :=
| At (k : Z)
| All.

(** [a[s1, ..., sn]]: an integer selects along the axis and drops it, [:]
    keeps the axis whole; more subscripts than axes is an [IndexError]. *)
Fixpoint getitem {A} (a : ndarray A) (subs : list subscript) : result (ndarray A) :=
  match subs with
  | [] => Ok a
  | s :: subs' =>
      match a with
      | Item _ => Raise IndexError
      | Arr l =>
          match s with
          | At k => a' ← Py.index l k; getitem a' subs'
          | All => l' ← Py.for_each (fun a' => getitem a' subs') l; Ok (Arr l')
          end
      end
  end.

(** A rank-0 result used as a Python number. *)
Definition item {A} (a : ndarray A) : result A :=
  match a with
  | Item x => Ok x
  | Arr _ => Raise TypeError
  end.

(** The one-dimensional array of the given entries, and the entries of a
    one-dimensional array. *)
Definition vector {A} (xs : list A) : ndarray A := Arr (Item <$> xs).

Definition as_vector {A} (a : ndarray A) : option (list A) :=
  match a with
  | Item _ => None
  | Arr l => mapM (fun e => match e with Item x => Some x | Arr _ => None end) l
  end.

(** [len(a)]: the length of the first axis; a rank-0 array has none. *)
Definition len {A} (a : ndarray A) : result nat :=
  match a with
  | Item _ => Raise TypeError
  | Arr l => Ok (length l)
  end.

(** Element-wise application, as in [a * c] and [a / c] for a scalar [c]. *)
Fixpoint map {A B} (g : A -> B) (a : ndarray A) : ndarray B :=
  match a with
  | Item x => Item (g x)
  | Arr l => Arr (List.map (map g) l)
  end.

(** [a.shape == shape]. *)
Fixpoint has_shape {A} (shape : list nat) (a : ndarray A) : bool :=
  match shape, a with
  | [], Item _ => true
  | n :: shape', Arr l => Nat.eqb (length l) n && forallb (has_shape shape') l
  | _, _ => false
  end.

(** The sub-array reached by walking one position per axis. *)
Fixpoint descend {A} (a : ndarray A) (path : list nat) : option (ndarray A) :=
  match path with
  | [] => Some a
  | k :: path' =>
      match a with
      | Item _ => None
      | Arr l => a' ← l !! k; descend a' path'
      end
  end.

(** A mesh whose entries increase strictly: each is below all later ones. *)
Definition strictly_increasing (xs : list float) : Prop :=
  StronglySorted (fun a b => (a <? b)%float = true) xs.

(** The order in which [argsort] and [sort] put floats: increasing, NaN last. *)
Definition lt (a b : float) : bool :=
  (a <? b)%float || (PrimFloat.is_nan b && negb (PrimFloat.is_nan a)).

(** Modelled from the spec: numpy is a library, not under src/.  What
    [interp1d] does to unsorted input,
    [ind = argsort(x, kind="mergesort"); x[ind], take(y, ind)], on the
    zipped columns: a stable sort of the pairs on their first entry. *)
Fixpoint insert_by_x (p : float * float) (l : list (float * float)) : list (float * float) :=
  match l with
  | [] => [p]
  | q :: l' => if lt (fst q) (fst p) then q :: insert_by_x p l' else p :: q :: l'
  end.

Fixpoint sort_by_x (l : list (float * float)) : list (float * float) :=
  match l with
  | [] => []
  | p :: l' => insert_by_x p (sort_by_x l')
  end.

(** Modelled from the spec: the search of the library's [interp].  For a
    key inside [arr[0], arr[-1]] the number of entries after the first that
    are [<=] the key, that is the index [j] with [arr[j] <= key < arr[j+1]];
    [-1] below the first entry, [len] above the last. *)
Fixpoint scan (key : float) (rest : list float) (i : nat) : nat :=
  match rest with
  | [] => i
  | a :: rest' => if (a <=? key)%float then scan key rest' (S i) else i
  end.

Definition binary_search (key : float) (arr : list float) : Z :=
  if (List.last arr nan <? key)%float then Z.of_nat (length arr)
  else if (key <? hd nan arr)%float then -1
  else Z.of_nat (scan key (tl arr) 1) - 1.

(** Modelled from the spec: the library's [interp(x, xp, fp)] at one point,
    for increasing [xp].  "linear [...] piecewise interpolant": the value on
    the segment that holds [x], read off the sample itself when [x] is a
    sample point. *)
Definition interp (x : float) (xp fp : list float) : float :=
  if PrimFloat.is_nan x then x
  else
    let n := Z.of_nat (length xp) in
    let j := binary_search x xp in
    if j =? -1 then hd nan fp
    else if j =? n then List.last fp nan
    else
      let dxj := nth (Z.to_nat j) xp nan in
      let dyj := nth (Z.to_nat j) fp nan in
      if j =? n - 1 then dyj
      else if (dxj =? x)%float then dyj
      else
        let dxj1 := nth (Z.to_nat (j + 1)) xp nan in
        let dyj1 := nth (Z.to_nat (j + 1)) fp nan in
        let slope := ((dyj1 - dyj) / (dxj1 - dxj))%float in
        let r := (slope * (x - dxj) + dyj)%float in
        if PrimFloat.is_nan r then
          let r' := (slope * (x - dxj1) + dyj1)%float in
          if PrimFloat.is_nan r' && (dyj =? dyj1)%float then dyj else r'
        else r.

End np.

(** ** The netCDF container and its reader *)

Module netcdf.

(** One result file: named dimensions and named arrays.  The arrays of
    doubles and the arrays of integers ([edos_intmeth], [kptrlatt]) are kept
    apart, since the embedding is typed. *)
Record Dataset : Type := {
  dimensions : gmap string nat;
  variables : gmap string (np.ndarray float);
  int_variables : gmap string (np.ndarray Z)
}.

End netcdf.

Module iotools.
Import netcdf.

(** Modelled from the spec: the base reader ([ETSF_Reader], through
    [ElectronsReader]) of [abipy.iotools] is not under src/.  "a Dataset is
    created by opening a path"; "opens it and fails with a NotFoundError
    [...] if the path is missing"; "holds an open file handle until close()". *)
Record ETSF_Reader : Type := {
  path : string;
  rootgrp : Dataset;
  isopen : bool
}.

(** Modelled from the spec: the constructor of the base reader, over the
    files that exist. *)
Definition ETSF_Reader_init (fs : gmap string Dataset) (filepath : string) : result ETSF_Reader :=
  match fs !! filepath with
  | Some ds => Ok {| path := filepath; rootgrp := ds; isopen := true |}
  | None => Raise NotFoundError
  end.

(** Modelled from the spec: [read_dimvalue] of the base reader.
    "read_dimension(name) -> int, fails with SchemaError if the dimension is
    not present"; "all read operations fail with ClosedError once closed". *)
Definition read_dimvalue (r : ETSF_Reader) (name : string) : result nat :=
  if isopen r
  then of_option (SchemaError name) (dimensions (rootgrp r) !! name)
  else Raise ClosedError.

(** Modelled from the spec: [read_value] of the base reader.
    "read_array(name) -> nd-array of float, fails with SchemaError if absent,
    returns values in native (non-SI) units". *)
Definition read_value (r : ETSF_Reader) (name : string) : result (np.ndarray float) :=
  if isopen r
  then of_option (SchemaError name) (variables (rootgrp r) !! name)
  else Raise ClosedError.

(** Modelled from the spec: [read_value] at an integer-valued variable. *)
Definition read_value_int (r : ETSF_Reader) (name : string) : result (np.ndarray Z) :=
  if isopen r
  then of_option (SchemaError name) (int_variables (rootgrp r) !! name)
  else Raise ClosedError.

(** Modelled from the spec: [read_variable] of the base reader, the array
    under that name (subscripted by the caller). *)
Definition read_variable (r : ETSF_Reader) (name : string) : result (np.ndarray float) :=
  if isopen r
  then of_option (SchemaError name) (variables (rootgrp r) !! name)
  else Raise ClosedError.

(** Modelled from the spec: [close] of the base reader.  "one-way transition
    via close()"; "close() is idempotent". *)
Definition close (r : ETSF_Reader) : ETSF_Reader :=
  {| path := path r; rootgrp := rootgrp r; isopen := false |}.

End iotools.

(** ** abipy.core.abinit_units *)

Module abu.

(** The conversion constants of [abipy.core.abinit_units], which is not
    under src/: Hartree to eV, and the Boltzmann constant in Hartree per
    Kelvin.  Their values are parameters of the development. *)
Class Units : Type := {
  Ha_to_eV : float;
  kb_HaK : float
}.

Definition axis_of (c : Ascii.ascii) : result Z :=
  if Ascii.eqb c "x"%char then Ok 0
  else if Ascii.eqb c "y"%char then Ok 1
  else if Ascii.eqb c "z"%char then Ok 2
  else Raise (KeyError (String c EmptyString)).

(** Modelled from the spec: [s2itup] of [abipy.core.abinit_units] is not
    under src/.  "a pair of axis indices (i, j) derived from a two-character
    label (e.g. xy -> (0,1))". *)
Definition s2itup (component : string) : result (Z * Z) :=
  match component with
  | String a (String b EmptyString) => i ← axis_of a; j ← axis_of b; Ok (i, j)
  | _ => Raise (ValueError "Wrong input")
  end.

End abu.

(** ** scipy.interpolate *)

Module interpolate.

(** Modelled from the spec: [interp1d] is a library class, not under src/.
    "Interpolation: linear [...] piecewise interpolant; fails with
    DomainError if the query point lies outside the energy mesh's range
    [...] (no extrapolation)".  The source calls it with its defaults,
    [kind="linear"], [bounds_error=True], [assume_sorted=False]; for
    one-dimensional real data the library then evaluates with
    [numpy.interp], and its range error is a [ValueError]. *)
Record interp1d : Type := {
  x : list float;
  y : list float
}.

(** Modelled from the spec: [interp1d(x, y)], which wants two
    one-dimensional arrays of one length with at least two entries and
    sorts them on [x]. *)
Definition interp1d_init (xa ya : np.ndarray float) : result interp1d :=
  xs ← of_option (ValueError "the x array must have exactly one dimension.") (np.as_vector xa);
  ys ← of_option (ValueError "the y array must have exactly one dimension.") (np.as_vector ya);
  if negb (Nat.eqb (length xs) (length ys))
  then Raise (ValueError "x and y arrays must be equal in length along interpolation axis.")
  else if (length xs <? 2)%nat
  then Raise (ValueError "x and y arrays must have at least 2 entries")
  else
    let columns := np.sort_by_x (combine xs ys) in
    Ok {| x := fst <$> columns; y := snd <$> columns |}.

(** Modelled from the spec: [f(x_new)].  A query below [x[0]] or above
    [x[-1]] raises; there is no extrapolation. *)
Definition interp1d_call (f : interp1d) (x_new : float) : result float :=
  if (x_new <? hd nan (x f))%float
  then Raise (ValueError "A value in x_new is below the interpolation range.")
  else if (List.last (x f) nan <? x_new)%float
  then Raise (ValueError "A value in x_new is above the interpolation range.")
  else Ok (np.interp x_new (x f) (y f)).

End interpolate.

(** ** abipy/eph/rta.py *)

Module rta.
Import netcdf abu interpolate.

(** [class RtaReader(ElectronsReader)]: the base reader and the two
    attributes set by [__init__]. *)
Record RtaReader : Type := {
  base : iotools.ETSF_Reader;
  nsppol : nat;
  tmesh : np.ndarray float
}.

Definition read_dimvalue (r : RtaReader) := iotools.read_dimvalue (base r).
Definition read_value (r : RtaReader) := iotools.read_value (base r).
Definition read_value_int (r : RtaReader) := iotools.read_value_int (base r).
Definition read_variable (r : RtaReader) := iotools.read_variable (base r).

(** The inherited [close] acts on the file handle and leaves the attributes
    of the instance as they are. *)
Definition reader_close (r : RtaReader) : RtaReader :=
  {| base := iotools.close (base r); nsppol := nsppol r; tmesh := tmesh r |}.

Section WithUnits.
Context `{Units}.

(** [RtaReader.__init__]. *)
Definition RtaReader_init (fs : gmap string Dataset) (filepath : string) : result RtaReader :=
  b ← iotools.ETSF_Reader_init fs filepath;
  n ← iotools.read_dimvalue b "nsppol";
  kTmesh ← iotools.read_value b "kTmesh";
  Ok {| base := b; nsppol := n; tmesh := np.map (fun kT => kT / kb_HaK)%float kTmesh |}.

(** [RtaReader.read_mobility]. *)
Definition read_mobility (r : RtaReader) (eh itemp : Z) (component : string) (spin irta : Z)
  : result (np.ndarray float * np.ndarray float) :=
  '(i, j) ← s2itup component;
  wvals ← read_variable r "edos_mesh";
  var ← read_variable r "mobility";
  mobility ← np.getitem var [np.At irta; np.At spin; np.At eh; np.At itemp; np.At j; np.At i; np.All];
  Ok (wvals, mobility).

(** [class RtaFile]: the attributes set by [__init__]. *)
Record RtaFile : Type := {
  filepath : string;
  reader : RtaReader;
  nrta : nat;
  vb_max_spin : np.ndarray float;
  cb_min_spin : np.ndarray float;
  edos_intmeth : np.ndarray Z;
  edos_broad_eV : np.ndarray float;
  edos_mesh_eV : np.ndarray float
}.

Definition to_eV (a : np.ndarray float) : np.ndarray float :=
  np.map (fun v => v * Ha_to_eV)%float a.

(** [RtaFile.__init__] (and [from_file], which only calls it). *)
Definition RtaFile_init (fs : gmap string Dataset) (path : string) : result RtaFile :=
  r ← RtaReader_init fs path;
  n ← read_dimvalue r "nrta";
  vb_max ← read_value r "vb_max";
  cb_min ← read_value r "cb_min";
  intmeth ← read_value_int r "edos_intmeth";
  broad ← read_value r "edos_broad";
  mesh ← read_value r "edos_mesh";
  Ok {| filepath := path; reader := r; nrta := n;
        vb_max_spin := to_eV vb_max; cb_min_spin := to_eV cb_min;
        edos_intmeth := intmeth; edos_broad_eV := to_eV broad;
        edos_mesh_eV := to_eV mesh |}.

Definition from_file := RtaFile_init.

(** The properties [RtaFile.tmesh] and [RtaFile.ntemp]. *)
Definition RtaFile_tmesh (f : RtaFile) : np.ndarray float := tmesh (reader f).

Definition ntemp (f : RtaFile) : result nat := np.len (RtaFile_tmesh f).

(** [RtaFile.get_mobility_mu]; the defaults of the signature are
    [component="xx"], [ef=None], [irta=0], [spin=0]. *)
Definition get_mobility_mu (f : RtaFile) (eh itemp : Z) (component : string)
    (ef : option float) (irta spin : Z) : result float :=
  ef ← match ef with
       | None => mu_e ← read_value (reader f) "transport_mu_e";
                 np.getitem mu_e [np.At itemp] ≫= np.item
       | Some e => Ok e
       end;
  '(emesh, mobility) ← read_mobility (reader f) eh itemp component spin irta;
  g ← interp1d_init emesh mobility;
  interp1d_call g ef.

(** [RtaFile.close]. *)
Definition close (f : RtaFile) : RtaFile :=
  {| filepath := filepath f; reader := reader_close (reader f); nrta := nrta f;
     vb_max_spin := vb_max_spin f; cb_min_spin := cb_min_spin f;
     edos_intmeth := edos_intmeth f; edos_broad_eV := edos_broad_eV f;
     edos_mesh_eV := edos_mesh_eV f |}.

(** [RtaRobot.plot_mobility_conv] up to and including [res.sort]: the value
    of the local [res], the list of [(kptrlattx, mobility)] pairs of the
    member files.  The figure drawn from it is not modelled. *)
Definition member_pair (eh itemp spin irta i j : Z) (ncfile : RtaFile) : result (Z * float) :=
  kptrlatt ← read_value_int (reader ncfile) "kptrlatt";
  kptrlattx ← np.getitem kptrlatt [np.At 0; np.At 0] ≫= np.item;
  kptrlatty ← np.getitem kptrlatt [np.At 1; np.At 1] ≫= np.item;
  kptrlattz ← np.getitem kptrlatt [np.At 2; np.At 2] ≫= np.item;
  var ← read_variable (reader ncfile) "mobility_mu";
  mobility ← np.getitem var [np.At irta; np.At spin; np.At itemp; np.At j; np.At i; np.At eh] ≫= np.item;
  Ok (kptrlattx, mobility).

Definition plot_mobility_conv_res (abifiles : list RtaFile) (eh : Z) (component : string)
    (itemp spin : Z) : result (list (Z * float)) :=
  '(i, j) ← s2itup component;
  let irta := 0 in
  res ← Py.for_each (member_pair eh itemp spin irta i j) abifiles;
  Ok (Py.sort fst res).

(** *** The life of one file object *)

(** What a caller can do with an [RtaFile], and what comes back. *)
Inductive call : Type :=
| Close
| Tmesh
| Ntemp
| ReadDimvalue (name : string)
| ReadValue (name : string)
| ReadVariable (name : string)
| ReadMobility (eh itemp : Z) (component : string) (spin irta : Z)
| GetMobilityMu (eh itemp : Z) (component : string) (ef : option float) (irta spin : Z).

Inductive value : Type :=
| VNone
| VInt (n : nat)
| VFloat (v : float)
| VArray (a : np.ndarray float)
| VPair (a b : np.ndarray float).

Definition exec (f : RtaFile) (c : call) : RtaFile * result value :=
  match c with
  | Close => (close f, Ok VNone)
  | Tmesh => (f, Ok (VArray (RtaFile_tmesh f)))
  | Ntemp => (f, VInt <$> ntemp f)
  | ReadDimvalue name => (f, VInt <$> read_dimvalue (reader f) name)
  | ReadValue name => (f, VArray <$> read_value (reader f) name)
  | ReadVariable name => (f, VArray <$> read_variable (reader f) name)
  | ReadMobility eh itemp component spin irta =>
      (f, (fun p => VPair (fst p) (snd p)) <$> read_mobility (reader f) eh itemp component spin irta)
  | GetMobilityMu eh itemp component ef irta spin =>
      (f, VFloat <$> get_mobility_mu f eh itemp component ef irta spin)
  end.

Fixpoint run (f : RtaFile) (cs : list call) : RtaFile * list (result value) :=
  match cs with
  | [] => (f, [])
  | c :: cs' =>
      let '(f1, o) := exec f c in
      let '(f2, os) := run f1 cs' in
      (f2, o :: os)
  end.

(** Whether a call goes to the file, or is answered from the attributes
    computed when the object was built. *)
Definition reads_file (c : call) : bool :=
  match c with
  | Close | Tmesh | Ntemp => false
  | _ => true
  end.

End WithUnits.

Definition is_open (f : RtaFile) : bool := iotools.isopen (base (reader f)).

(** What a call answers once the file is closed: the attributes computed
    at construction are still served; a call that goes to the file raises
    [ClosedError], unless the component label is rejected before the file
    is touched. *)
Definition closed_outcome (f : RtaFile) (c : call) (o : result value) : Prop :=
  match c with
  | Close => o = Ok VNone
  | Tmesh => o = Ok (VArray (RtaFile_tmesh f))
  | Ntemp => o = VInt <$> ntemp f
  | ReadDimvalue _ | ReadValue _ | ReadVariable _ => o = Raise ClosedError
  | GetMobilityMu _ _ _ None _ _ => o = Raise ClosedError
  | ReadMobility _ _ component _ _ | GetMobilityMu _ _ component (Some _) _ _ =>
      match s2itup component with
      | Ok _ => o = Raise ClosedError
      | Raise e => o = Raise e
      end
  end.

(** The schema of an RTA.nc file, as the comments of the source give it
    (the Fortran declarations list the axes in reverse order). *)
Record schema (ds : Dataset) (n_rta n_sppol n_temp n_w : nat) : Prop := {
  schema_mesh : exists a, variables ds !! "edos_mesh" = Some a /\ np.has_shape [n_w] a = true;
  schema_mobility : exists a, variables ds !! "mobility" = Some a /\
    np.has_shape [n_rta; n_sppol; 2%nat; n_temp; 3%nat; 3%nat; n_w] a = true
}.

End rta.

(** ** abipy/lessons/lesson_helper_functions.py *)

Module lessons.

(** One entry of [abinit_vars.yml]. *)
Record variable : Type := {
  varname : string;
  defaultval : string;
  text : string
}.

(** [class VariableDatabase]. *)
Record VariableDatabase : Type := {
  all_vars : gmap string variable
}.

(** [VariableDatabase.load_vars]: the loop over the loaded entries. *)
Definition load_vars (variables : list variable) : VariableDatabase :=
  {| all_vars := foldl (fun d var => <[varname var := var]> d) ∅ variables |}.

Definition get_var (db : VariableDatabase) (name : string) : result variable :=
  of_option (KeyError name) (all_vars db !! name).

(** The part of the process that the module touches: what [yaml.load]
    gives for [abinit_vars.yml] ([None] when the file cannot be opened),
    the [VariableDatabase] objects constructed so far, each at the address
    that is its position, and the module global [__VARS_DATABASE], which is
    [None] or the address of one of them. *)
Record process : Type := {
  abinit_vars_yml : option (list variable);
  heap : list VariableDatabase;
  VARS_DATABASE : option nat
}.

(** The state in which the module is imported: [__VARS_DATABASE = None]. *)
Definition imported (yml : option (list variable)) : process :=
  {| abinit_vars_yml := yml; heap := []; VARS_DATABASE := None |}.

(** [VariableDatabase()]: a new object, allocated after the existing ones. *)
Definition VariableDatabase_init (p : process) : result nat * process :=
  match abinit_vars_yml p with
  | None => (Raise NotFoundError, p)
  | Some variables =>
      (Ok (length (heap p)),
       {| abinit_vars_yml := abinit_vars_yml p;
          heap := heap p ++ [load_vars variables];
          VARS_DATABASE := VARS_DATABASE p |})
  end.

(** [get_abinit_variables]. *)
Definition get_abinit_variables (p : process) : result nat * process :=
  match VARS_DATABASE p with
  | None =>
      match VariableDatabase_init p with
      | (Ok ref, p') =>
          (Ok ref, {| abinit_vars_yml := abinit_vars_yml p'; heap := heap p';
                      VARS_DATABASE := Some ref |})
      | (Raise e, p') => (Raise e, p')
      end
  | Some ref => (Ok ref, p)
  end.

(** [n] calls in a row. *)
Fixpoint calls (n : nat) (p : process) : list (result nat) * process :=
  match n with
  | O => ([], p)
  | S n' =>
      let '(r, p1) := get_abinit_variables p in
      let '(rs, p2) := calls n' p1 in
      (r :: rs, p2)
  end.

End lessons.

(** ** abipy/benchmarks/__init__.py *)

Module benchmarks.

(** The attributes of the parsed options that the patched methods read.
    [max_ncpus] is tested against [None] by [accept_mpi_omp]. *)
Record options : Type := {
  workdir : string;
  min_ncpus : Z;
  max_ncpus : option Z
}.

(** The defaults of the parser. *)
Definition default_options : options :=
  {| workdir := ""; min_ncpus := -1; max_ncpus := Some 206 |}.

(** [accept_mpi_omp]: the answer, and the lines handed to [cprint]. *)
Definition accept_mpi_omp (opts : options) (mpi_procs omp_threads : Z) : bool * list string :=
  let tot_ncpus := mpi_procs * omp_threads in
  if tot_ncpus <? min_ncpus opts
  then (false, ["Skipping mpi_procs " +:+ pretty mpi_procs +:+ " because of min_ncpus"])
  else
    match max_ncpus opts with
    | Some mx =>
        if mx <? tot_ncpus
        then (false, ["Skipping mpi_procs " +:+ pretty mpi_procs +:+ " because of max_ncpus"])
        else (true, [])
    | None => (true, [])
    end.

End benchmarks.

(** ** Python: strings, further exceptions *)

Module Pystr.

(** Exceptions beyond those of the transport reader. *)
Inductive exn2 : Type :=
| Base (e : exn)
| UnboundLocalError (name : string)
| ZeroDivisionError
| AssertionError
| RuntimeError (msg : string)
| IOError (filename : string).

Inductive outcome (A : Type) : Type :=
| Return (a : A)
| Throw (e : exn2).
Arguments Return {A} a.
Arguments Throw {A} e.

#[export] Instance outcome_ret : MRet outcome := fun _ a => Return a.
#[export] Instance outcome_bind : MBind outcome := fun _ _ k m =>
  match m with
  | Return a => k a
  | Throw e => Throw e
  end.

(** A statement that raises one of the reader's exceptions. *)
Definition lift {A} (m : result A) : outcome A :=
  match m with
  | Ok a => Return a
  | Raise e => Throw (Base e)
  end.

Fixpoint has_slash (p : string) : bool :=
  match p with
  | EmptyString => false
  | String c p' => Ascii.eqb c "/"%char || has_slash p'
  end.

(** [os.path.basename(p)]: what follows the last [/]. *)
Fixpoint basename (p : string) : string :=
  match p with
  | EmptyString => EmptyString
  | String _ p' => if has_slash p then basename p' else p
  end.

(** [s[:-1]]. *)
Fixpoint drop_last (s : string) : string :=
  match s with
  | EmptyString => EmptyString
  | String c EmptyString => EmptyString
  | String c s' => String c (drop_last s')
  end.

(** [s.replace(old, new)] for a non-empty [old]: the occurrences are taken
    from left to right and do not overlap.  [skip] counts the characters
    of an occurrence that are still to be passed over. *)
Fixpoint replace_from (old new : string) (skip : nat) (s : string) : string :=
  match s with
  | EmptyString => EmptyString
  | String c s' =>
      match skip with
      | S n => replace_from old new n s'
      | O =>
          if String.prefix old s
          then new +:+ replace_from old new (String.length old - 1) s'
          else String c (replace_from old new 0 s')
      end
  end.

Definition replace (old new s : string) : string := replace_from old new 0 s.

End Pystr.

(** ** abipy/eph/rta.py: labels, styles and the figure of the robot *)

Module rta_helpers.
Import netcdf abu rta Pystr.

Definition eh2s (eh : Z) : result string :=
  if eh =? 0 then Ok "n"
  else if eh =? 1 then Ok "p"
  else Raise (KeyError (pretty eh)).

Definition irta2s (irta : Z) : result string :=
  if irta =? 0 then Ok "SERTA"
  else if irta =? 1 then Ok "MRTA"
  else Raise (KeyError (pretty irta)).

(** The keyword arguments that [style_for_irta] returns. *)
Record line_style : Type := {
  linewidth : float;
  linestyle : string;
  marker : option string
}.

Definition style_for_irta (irta : Z) (with_marker : bool) : result line_style :=
  if irta =? 0 then
    Ok {| linewidth := 1; linestyle := "dotted";
          marker := if with_marker then Some "^" else None |}
  else if irta =? 1 then
    Ok {| linewidth := 1; linestyle := "solid";
          marker := if with_marker then Some "v" else None |}
  else Raise (ValueError ("Invalid value for irta: " +:+ pretty irta)).

Definition irta2latextau (irta : Z) (with_dollars : bool) : result string :=
  name ← irta2s irta;
  let s := "\tau^{\mathbf{" +:+ name +:+ "}}}" in
  Ok (if with_dollars then "$" +:+ s +:+ "$" else s).

(** [monty.string.list_strings] (a library function): a string becomes the
    list that holds it, a sequence of strings stays as it is. *)
Definition list_strings (arg : string + list string) : list string :=
  match arg with
  | inl s => [s]
  | inr l => l
  end.

(** [x2_grid]: [(num_plots, ncols, nrows, what_list)]. *)
Definition x2_grid (what_list : string + list string) : nat * nat * nat * list string :=
  let what_list := list_strings what_list in
  let num_plots := length what_list in
  if (1 <? num_plots)%nat
  then (num_plots, 2%nat, (num_plots / 2 + num_plots mod 2)%nat, what_list)
  else (num_plots, 1%nat, 1%nat, what_list).

(** [fractions.Fraction(n, d)] (standard library): the value in lowest
    terms with a positive denominator. *)
Record Fraction : Type := {
  numerator : Z;
  denominator : Z
}.

Definition Fraction_init (n d : Z) : outcome Fraction :=
  if d =? 0 then Throw ZeroDivisionError
  else
    let g := Z.gcd n d in
    let g := if d <? 0 then - g else g in
    Return {| numerator := n / g; denominator := d / g |}.

(** What one pass of the loop of [plot_mobility_conv] binds. *)
Record row : Type := {
  kptrlattx : Z;
  kptrlatty : Z;
  kptrlattz : Z;
  mobility : float
}.

Definition member_row (eh itemp spin irta i j : Z) (ncfile : RtaFile) : result row :=
  kptrlatt ← read_value_int (reader ncfile) "kptrlatt";
  kx ← np.getitem kptrlatt [np.At 0; np.At 0] ≫= np.item;
  ky ← np.getitem kptrlatt [np.At 1; np.At 1] ≫= np.item;
  kz ← np.getitem kptrlatt [np.At 2; np.At 2] ≫= np.item;
  var ← read_variable (reader ncfile) "mobility_mu";
  mu ← np.getitem var [np.At irta; np.At spin; np.At itemp; np.At j; np.At i; np.At eh] ≫= np.item;
  Ok {| kptrlattx := kx; kptrlatty := ky; kptrlattz := kz; mobility := mu |}.

(** What [plot_mobility_conv] hands to matplotlib: the two axis labels and
    the rows of [res], whose columns are plotted against each other. *)
Record figure : Type := {
  ylabel : string;
  xlabel : string;
  points : list (Z * float)
}.

Definition fraction_text (ratio : Fraction) : string :=
  if numerator ratio =? denominator ratio then ""
  else "$\frac{" +:+ pretty (numerator ratio) +:+ "}{" +:+ pretty (denominator ratio) +:+ "}$".

(** [RtaRobot.plot_mobility_conv], whole.  After the loop the names
    [kptrlattx], [kptrlatty], [kptrlattz] hold the values of the last file,
    and are unbound when there is no file. *)
Definition plot_mobility_conv (abifiles : list RtaFile) (eh : Z) (component : string)
    (itemp spin : Z) : outcome figure :=
  '(i, j) ← lift (s2itup component);
  let irta := 0 in
  rows ← lift (Py.for_each (member_row eh itemp spin irta i j) abifiles);
  let res := Py.sort fst ((fun r => (kptrlattx r, mobility r)) <$> rows) in
  yl ← (if eh =? 0 then Return "Electron mobility (cm$^2$/(V$\cdot$s))"
        else if eh =? 1 then Return "Hole mobility (cm$^2$/(V$\cdot$s))"
        else Throw (Base (ValueError ("Invalid value for `eh` argument: " +:+ pretty eh))));
  r ← match last rows with
      | Some r => Return r
      | None => Throw (UnboundLocalError "kptrlatty")
      end;
  ratio1 ← Fraction_init (kptrlatty r) (kptrlattx r);
  ratio2 ← Fraction_init (kptrlattz r) (kptrlattx r);
  let text1 := fraction_text ratio1 in
  let text2 := fraction_text ratio2 in
  Return {| ylabel := yl;
            xlabel := "Homogeneous $N_k \times$ " +:+ text1 +:+ "$N_k \times$ " +:+ text2
                      +:+ "$N_k$ $\mathbf{k}$-point grid";
            points := res |}.

End rta_helpers.

(** ** abipy/eph/rta.py: the mobility plot of one file *)

Module rta_plot.
Import np netcdf abu rta rta_helpers.

(** [enumerate(xs)]. *)
Fixpoint enumerate_from {A} (k : nat) (xs : list A) : list (nat * A) :=
  match xs with
  | [] => []
  | x :: xs' => (k, x) :: enumerate_from (S k) xs'
  end.

(** Iterating over an array goes along its first axis; a rank-0 array
    cannot be iterated over. *)
Definition iter {A} (a : ndarray A) : result (list (ndarray A)) :=
  match a with
  | Item _ => Raise TypeError
  | Arr l => Ok l
  end.

(** One call of [ax.plot]: the abscissas, the ordinates, the argument
    [itemp / ntemp] of the colour map, the label and the line style. *)
Record curve : Type := {
  xdata : ndarray float;
  ydata : ndarray float;
  color : nat * nat;
  label : option string;
  style : line_style
}.

(** One call of [ax.axvline]. *)
Record vline : Type := {
  position : ndarray float;
  vcolor : string
}.

Record mobility_figure : Type := {
  curves : list curve;
  vlines : list vline;
  fig_xlabel : string;
  fig_ylabel : string;
  fig_yscale : string
}.

(** [RtaFile._add_vline_at_bandedge]: the vertical lines it draws. *)
Definition _add_vline_at_bandedge (f : RtaFile) (spin : Z) (cbm_or_vbm : string)
  : result (list vline) :=
  l1 ← (if String.eqb cbm_or_vbm "cbm" || String.eqb cbm_or_vbm "both"
        then x ← getitem (cb_min_spin f) [At spin]; Ok [{| position := x; vcolor := "red" |}]
        else Ok []);
  l2 ← (if String.eqb cbm_or_vbm "vbm" || String.eqb cbm_or_vbm "both"
        then x ← getitem (vb_max_spin f) [At spin]; Ok [{| position := x; vcolor := "blue" |}]
        else Ok []);
  Ok (l1 ++ l2).

Section Plot.
(** ["%d" % temp], the formatting of a number by the interpreter. *)
Context (fmt_d : float -> string).

(** The body of the inner loop of [plot_mobility]. *)
Definition plot_curve (f : RtaFile) (mu_var : ndarray float) (eh spin i j : Z)
    (irta : nat) (it : nat * ndarray float) : result curve :=
  let '(itemp, temp) := it in
  mu ← getitem mu_var [At (Z.of_nat irta); At spin; At eh; At (Z.of_nat itemp); At j; At i];
  temp ← item temp;
  let label := "T = " +:+ fmt_d temp +:+ "K" in
  label ← (if Nat.eqb itemp 0
           then name ← irta2s (Z.of_nat irta); Ok (label +:+ " (" +:+ name +:+ ")")
           else Ok label);
  let label := if Nat.eqb irta 0 && Nat.ltb 0 itemp then None else Some label in
  n ← ntemp f;
  st ← style_for_irta (Z.of_nat irta) false;
  Ok {| xdata := edos_mesh_eV f; ydata := mu; color := (itemp, n); label := label; style := st |}.

(** [RtaFile.plot_mobility]: what is drawn.  The argument [irta] of the
    signature is shadowed by the loop and plays no part. *)
Definition plot_mobility (f : RtaFile) (eh : Z) (component : string) (spin : Z)
    (yscale : string) : result mobility_figure :=
  mu_var ← read_variable (reader f) "mobility";
  '(i, j) ← s2itup component;
  rows ← Py.for_each
            (fun irta => temps ← iter (RtaFile_tmesh f);
                         Py.for_each (plot_curve f mu_var eh spin i j irta) (enumerate_from 0 temps))
            (seq 0 (nrta f));
  lines ← _add_vline_at_bandedge f spin (if eh =? 0 then "cbm" else "vbm");
  name ← eh2s eh;
  Ok {| curves := mjoin rows; vlines := lines;
        fig_xlabel := "Fermi level (eV)";
        fig_ylabel := name +:+ "-mobility $\mu_{" +:+ component +:+ "}(\epsilon_F)$ (cm$^2$/Vs)";
        fig_yscale := yscale |}.

End Plot.

End rta_plot.

(** ** abipy/lessons/lesson_helper_functions.py: help texts and local copies *)

Module lessons_io.
Import lessons Pystr.

(** The escape sequences ["\033[1m"] and ["\033[0m"]. *)
Definition bold_on : string := String (ascii_of_nat 27) "[1m".
Definition bold_off : string := String (ascii_of_nat 27) "[0m".

(** The object at an address.  Every address that [VariableDatabase()] hands
    out is in the heap; an address outside it stands for no object and is
    read as a database without entries. *)
Definition deref (p : process) (ref : nat) : VariableDatabase :=
  default (load_vars []) (heap p !! ref).

Section Help.
Context (html2text : string -> string).

(** [abinit_help]: the lines printed, and the process afterwards.
    [html2text.html2text] is a library function and a parameter here. *)
Definition abinit_help (inputvariable : string) (p : process) : result (list string) * process :=
  match get_abinit_variables p with
  | (Raise e, p') => (Raise e, p')
  | (Ok database, p') =>
      match get_var (deref p' database) inputvariable with
      | Raise e => (Raise e, p')
      | Ok var =>
          let text := html2text ("<h2>Default value : </h2>" +:+ defaultval var
                                 +:+ "<br /><h2>Description</h2>" +:+ lessons.text var) in
          (Ok [replace "]]" bold_off (replace "[[" bold_on text)], p')
      end
  end.

End Help.

(** [get_local_copy], for a module whose [__file__] is [file_], over the
    files that the process sees, each under the name by which it is opened. *)
Definition get_local_copy (file_ : string) (fs : gmap string string)
  : outcome unit * gmap string string :=
  let src := drop_last file_ in
  let dst := basename src in
  match fs !! dst with
  | Some _ =>
      (Throw (RuntimeError ("file " +:+ dst
                +:+ " already exists. Remove it before calling get_local_copy")), fs)
  | None =>
      match fs !! src with
      | Some content => (Return tt, <[dst := content]> fs)
      | None => (Throw (IOError src), fs)
      end
  end.

End lessons_io.

(** ** abipy/benchmarks/__init__.py: working directory and benchmark flow *)

Module benchmark_flow.
Import benchmarks Pystr.

(** The patched [get_workdir]. *)
Definition get_workdir (opts : options) (_file_ : string) : string :=
  if negb (String.eqb (workdir opts) "") then workdir opts
  else "bench_" +:+ replace ".py" "" (basename _file_).

(** A task of the flow: its node identifier, and whether its status is
    [S_OK]. *)
Record Task : Type := {
  node_id : nat;
  status_ok : bool
}.

Record Work : Type := {
  work_id : nat;
  tasks : list Task
}.

(** A node handed to [exclude_from_benchmark]: a work, a task, or a node
    that is neither. *)
Inductive Node : Type :=
| WorkNode (w : Work)
| TaskNode (t : Task)
| OtherNode (id : nat).

(** [class BenchmarkFlow(Flow)]: the works of the flow, and the attribute
    [_exclude_nodeids], absent until it is first needed. *)
Record BenchmarkFlow : Type := {
  works : list Work;
  _exclude_nodeids : option (gset nat)
}.

(** [Flow.iflat_tasks] (a library method): the tasks of all works, in order. *)
Definition iflat_tasks (f : BenchmarkFlow) : list Task := mjoin (tasks <$> works f).

(** The property [exclude_nodeids]. *)
Definition exclude_nodeids (f : BenchmarkFlow) : gset nat * BenchmarkFlow :=
  match _exclude_nodeids f with
  | Some s => (s, f)
  | None => (∅, {| works := works f; _exclude_nodeids := Some ∅ |})
  end.

(** [exclude_from_benchmark]. *)
Definition exclude_from_benchmark (f : BenchmarkFlow) (node : Node) : outcome unit * BenchmarkFlow :=
  let '(s, f1) := exclude_nodeids f in
  match node with
  | WorkNode w =>
      (Return tt,
       {| works := works f1;
          _exclude_nodeids := Some (foldl (fun acc task => acc ∪ {[node_id task]}) s (tasks w)) |})
  | TaskNode t =>
      (Return tt, {| works := works f1; _exclude_nodeids := Some (s ∪ {[node_id t]}) |})
  | OtherNode _ => (Throw AssertionError, f1)
  end.

(** The loop of [get_parser] that gathers [nids]. *)
Fixpoint gather_nids (ts : list Task) (f : BenchmarkFlow) (nids : list nat)
  : list nat * BenchmarkFlow :=
  match ts with
  | [] => (nids, f)
  | task :: ts' =>
      let '(excluded, f1) := exclude_nodeids f in
      if decide (node_id task ∈ excluded) then gather_nids ts' f1 nids
      else if negb (status_ok task) then gather_nids ts' f1 nids
      else gather_nids ts' f1 (nids ++ [node_id task])
  end.

(** The identifiers excluded so far (none while the attribute is absent),
    and the identifiers that [get_parser] passes to [parse_timing]. *)
Definition excluded (f : BenchmarkFlow) : gset nat := default ∅ (_exclude_nodeids f).

Definition nids (f : BenchmarkFlow) : list nat := fst (gather_nids (iflat_tasks f) f []).

Section Timing.
Context {parser : Type} (parse_timing : list nat -> option parser) (len : parser -> nat).

(** [get_parser]: the parser (or [None]), the lines printed, and the flow
    afterwards.  [Flow.parse_timing] is a library method and a parameter. *)
Definition get_parser (f : BenchmarkFlow) : option parser * list string * BenchmarkFlow :=
  let '(nids, f1) := gather_nids (iflat_tasks f) f [] in
  let parser := parse_timing nids in
  let printed :=
    match parser with
    | None => ["parse_timing returned None!"]
    | Some p =>
        if negb (Nat.eqb (len p) (length nids))
        then ["Not all timing sections have been parsed!"]
        else []
    end in
  (parser, printed, f1).

End Timing.

End benchmark_flow.

(** ** Sample files *)

Module samples.
Import np netcdf iotools rta.

(** CODATA values, as an instance of the unit parameters. *)
Definition Ha : float := 27.211386024367243.
Definition kb : float := 3.1668115634556e-06.

#[export] Instance units : abu.Units := {| abu.Ha_to_eV := Ha; abu.kb_HaK := kb |}.

Definition of_Z (n : Z) : float := PrimFloat.of_uint63 (Uint63.of_Z n).

(** The array of the given shape whose entry at a position is [g] of it. *)
Fixpoint tabulate (shape : list nat) (g : list nat -> float) : ndarray float :=
  match shape with
  | [] => Item (g [])
  | n :: shape' => Arr (List.map (fun k => tabulate shape' (fun pos => g (k :: pos))) (seq 0 n))
  end.

(** The position written in base ten: entry [0,0,0,1,0,0,2] holds 1002. *)
Definition digits (pos : list nat) : Z := foldl (fun acc k => 10 * acc + Z.of_nat k) 0 pos.

(** An RTA.nc file with [nrta=2], [nsppol=1], [ntemp=3], temperatures
    100, 200 and 300 K and [edos_nw] mesh points, on a [k x k x k] grid;
    [shift] tells the mobilities of one file from those of another. *)
Definition dataset (mesh : list float) (k : Z) (shift : Z) : Dataset :=
  {| dimensions := list_to_map
       [("nrta", 2%nat); ("nsppol", 1%nat); ("ntemp", 3%nat); ("edos_nw", length mesh)];
     variables := list_to_map
       [("kTmesh", vector (List.map (fun t => t * abu.kb_HaK)%float [100; 200; 300]%float));
        ("edos_mesh", vector mesh);
        ("vb_max", vector [0.125%float]);
        ("cb_min", vector [0.25%float]);
        ("edos_broad", Item 0.001%float);
        ("transport_mu_e", vector [0.25; 0.375; 0.5]%float);
        ("mobility", tabulate [2; 1; 2; 3; 3; 3; length mesh]%nat
                       (fun pos => of_Z (shift + digits pos)));
        ("mobility_mu", tabulate [2; 1; 3; 3; 3; 2]%nat
                       (fun pos => of_Z (shift + digits pos)))];
     int_variables := list_to_map
       [("edos_intmeth", Item 2);
        ("kptrlatt", Arr [Arr [Item k; Item 0; Item 0];
                          Arr [Item 0; Item k; Item 0];
                          Arr [Item 0; Item 0; Item k]])] |}.

Definition mesh4 : list float := [0; 0.25; 0.5; 0.75]%float.

Definition fs : gmap string Dataset := list_to_map
  [("k8_RTA.nc", dataset mesh4 8 0);
   ("k4_RTA.nc", dataset mesh4 4 1000000);
   ("k8b_RTA.nc", dataset mesh4 8 2000000)].

(** The object that [RtaFile(path)] builds for a file holding [ds]. *)
Definition opened (path : string) (ds : Dataset) : RtaReader :=
  {| base := {| iotools.path := path; rootgrp := ds; isopen := true |};
     nsppol := 1;
     tmesh := vector (List.map (fun t => t * abu.kb_HaK / abu.kb_HaK)%float [100; 200; 300]%float) |}.

Definition file (path : string) (ds : Dataset) : RtaFile :=
  {| filepath := path; reader := opened path ds; nrta := 2;
     vb_max_spin := vector [(0.125 * abu.Ha_to_eV)%float];
     cb_min_spin := vector [(0.25 * abu.Ha_to_eV)%float];
     edos_intmeth := Item 2;
     edos_broad_eV := Item (0.001 * abu.Ha_to_eV)%float;
     edos_mesh_eV := to_eV (vector mesh4) |}.

(** [RtaFile(path)] under these units. *)
Definition open_file : gmap string Dataset -> string -> result RtaFile := RtaFile_init.

Definition k8 : RtaFile := file "k8_RTA.nc" (dataset mesh4 8 0).
Definition k4 : RtaFile := file "k4_RTA.nc" (dataset mesh4 4 1000000).
Definition k8b : RtaFile := file "k8b_RTA.nc" (dataset mesh4 8 2000000).

End samples.

(** * Properties *)

(** ** Order of binary64 numbers *)

Module float_order.

Lemma SFcompare_antisym (a b : spec_float) (c : comparison) :
  SFcompare a b = Some c -> SFcompare b a = Some (CompOpp c).
Proof.
  destruct a as [sa|sa| |sa ma ea], b as [sb|sb| |sb mb eb]; simpl;
    try discriminate; try destruct sa; try destruct sb;
    intros E; inversion E; subst; clear E; simpl; try reflexivity; f_equal.
  all: rewrite (Z.compare_antisym ea eb); destruct (ea ?= eb)%Z; simpl; try reflexivity.
  all: pose proof (Pos.compare_antisym ma mb) as P; unfold Pos.compare in P;
       rewrite P; try rewrite CompOpp_involutive; reflexivity.
Qed.

Lemma SFcompare_refl (a b : spec_float) (c : comparison) :
  SFcompare a b = Some c -> SFcompare a a = Some Eq.
Proof.
  destruct a as [sa|sa| |sa ma ea], b as [sb|sb| |sb mb eb]; simpl;
    try discriminate; intros _; try destruct sa; try reflexivity.
  all: rewrite Z.compare_refl; f_equal.
  all: pose proof (Pos.compare_refl ma) as P; unfold Pos.compare in P;
       rewrite P; reflexivity.
Qed.

Lemma ltb_compare (a b : float) :
  (a <? b)%float = true <-> SFcompare (Prim2SF a) (Prim2SF b) = Some Lt.
Proof.
  rewrite ltb_spec. unfold SFltb.
  destruct (SFcompare _ _) as [[]|]; split; congruence.
Qed.

Lemma ltb_asym (a b : float) : (a <? b)%float = true -> (b <? a)%float = false.
Proof.
  intros E%ltb_compare. apply SFcompare_antisym in E.
  rewrite ltb_spec. unfold SFltb. rewrite E. reflexivity.
Qed.

Lemma ltb_irrefl (a : float) : (a <? a)%float = false.
Proof.
  destruct (a <? a)%float eqn:E; [|reflexivity].
  rewrite <- E. apply ltb_asym. exact E.
Qed.

Lemma ltb_leb (a b : float) : (a <? b)%float = true -> (a <=? b)%float = true.
Proof.
  intros E%ltb_compare. rewrite leb_spec. unfold SFleb. rewrite E. reflexivity.
Qed.

Lemma ltb_not_leb (a b : float) : (a <? b)%float = true -> (b <=? a)%float = false.
Proof.
  intros E%ltb_compare. apply SFcompare_antisym in E.
  rewrite leb_spec. unfold SFleb. rewrite E. reflexivity.
Qed.

Lemma ltb_eqb_l (a b : float) : (a <? b)%float = true -> (a =? a)%float = true.
Proof.
  intros E%ltb_compare. apply SFcompare_refl in E.
  rewrite FloatAxioms.eqb_spec. unfold SFeqb. rewrite E. reflexivity.
Qed.

Lemma ltb_eqb_r (a b : float) : (a <? b)%float = true -> (b =? b)%float = true.
Proof.
  intros E%ltb_compare. apply SFcompare_antisym, SFcompare_refl in E.
  rewrite FloatAxioms.eqb_spec. unfold SFeqb. rewrite E. reflexivity.
Qed.

Lemma eqb_leb (a : float) : (a =? a)%float = true -> (a <=? a)%float = true.
Proof.
  intros E. rewrite FloatAxioms.eqb_spec in E. rewrite FloatAxioms.leb_spec.
  unfold SFeqb in E. unfold SFleb.
  destruct (SFcompare _ _) as [[]|]; congruence.
Qed.

Lemma ltb_not_nan_l (a b : float) : (a <? b)%float = true -> PrimFloat.is_nan a = false.
Proof. intros E. unfold PrimFloat.is_nan. rewrite (ltb_eqb_l a b E). reflexivity. Qed.

Lemma ltb_not_nan_r (a b : float) : (a <? b)%float = true -> PrimFloat.is_nan b = false.
Proof. intros E. unfold PrimFloat.is_nan. rewrite (ltb_eqb_r a b E). reflexivity. Qed.

End float_order.

(** ** Subscripting arrays of a known shape *)

Module np_facts.
Import np.

Lemma index_in_range {A} (l : list A) (k : Z) :
  0 <= k < Z.of_nat (length l) ->
  exists a, l !! Z.to_nat k = Some a /\ Py.index l k = Ok a.
Proof.
  intros Hk. unfold Py.index.
  destruct (Z.ltb_spec k 0) as [?|_]; [lia|].
  destruct (Z.leb_spec 0 k) as [_|?]; [|lia].
  destruct (Z.ltb_spec k (Z.of_nat (length l))) as [_|?]; [|lia]. simpl.
  destruct (lookup_lt_is_Some_2 l (Z.to_nat k)) as [a Ha]; [lia|].
  exists a. rewrite Ha. split; reflexivity.
Qed.

Lemma has_shape_cons {A} (n : nat) (shape : list nat) (a : ndarray A) :
  has_shape (n :: shape) a = true ->
  exists l, a = Arr l /\ length l = n /\ Forall (fun a' => has_shape shape a' = true) l.
Proof.
  destruct a as [x|l]; simpl; [discriminate|].
  intros [Hn Hall]%andb_true_iff. exists l. split; [reflexivity|]. split.
  - apply Nat.eqb_eq, Hn.
  - apply Forall_forall. intros a' Ha'. eapply forallb_forall in Hall; [exact Hall|].
    apply list_elem_of_In, Ha'.
Qed.

Lemma has_shape_vector {A} (n : nat) (a : ndarray A) :
  has_shape [n] a = true -> exists xs, a = vector xs /\ length xs = n.
Proof.
  intros (l & -> & Hn & Hall)%has_shape_cons. subst n.
  induction l as [|a l IH].
  - exists []. split; reflexivity.
  - inversion Hall as [|? ? Ha Hl]; subst.
    destruct (IH Hl) as (xs & Hxs & Hlen).
    destruct a as [x|?]; [|discriminate Ha].
    exists (x :: xs). unfold vector in *. simpl. injection Hxs as ->.
    rewrite length_fmap in Hlen |- *. split; [reflexivity|]. simpl. lia.
Qed.

Lemma as_vector_vector {A} (xs : list A) : as_vector (vector xs) = Some xs.
Proof.
  unfold as_vector, vector. induction xs as [|x xs IH]; [reflexivity|].
  rewrite fmap_cons. cbn [mapM]. rewrite IH. reflexivity.
Qed.

Lemma len_vector {A} (xs : list A) : len (vector xs) = Ok (length xs).
Proof. unfold len, vector. rewrite length_fmap. reflexivity. Qed.

Lemma getitem_all_vector {A} (xs : list A) : getitem (vector xs) [All] = Ok (vector xs).
Proof.
  unfold vector. cbn [getitem].
  assert (E : forall l : list (ndarray A), Py.for_each (fun a' => Ok a') l = Ok l).
  { induction l as [|a l IH]; [reflexivity|]. cbn [Py.for_each]. rewrite IH. reflexivity. }
  rewrite E. reflexivity.
Qed.

(** Integer subscripts inside the axes, followed by [:], reach the
    one-dimensional array found by walking the same positions. *)
Lemma getitem_slice {A} (dims : list nat) (n : nat) :
  forall (a : ndarray A) (ks : list Z),
    has_shape (dims ++ [n]) a = true ->
    Forall2 (fun k d => 0 <= k < Z.of_nat d) ks dims ->
    exists xs, getitem a ((At <$> ks) ++ [All]) = Ok (vector xs) /\
               descend a (Z.to_nat <$> ks) = Some (vector xs) /\
               length xs = n.
Proof.
  induction dims as [|d dims IH]; intros a ks Hs Hks.
  - inversion Hks; subst. simpl in Hs.
    destruct (has_shape_vector n a Hs) as (xs & -> & Hlen).
    exists xs. split; [apply getitem_all_vector|]. split; [reflexivity|exact Hlen].
  - inversion Hks as [|k ? ks' ? Hk Hks']; subst.
    change ((d :: dims) ++ [n]) with (d :: (dims ++ [n])) in Hs.
    destruct (has_shape_cons _ _ _ Hs) as (l & -> & Hlen & Hall).
    destruct (index_in_range l k) as (a' & Hlook & Hidx); [lia|].
    assert (Ha' : has_shape (dims ++ [n]) a' = true).
    { eapply Forall_lookup_1 in Hall; [exact Hall|exact Hlook]. }
    destruct (IH a' ks' Ha' Hks') as (xs & Hget & Hdesc & Hn).
    exists xs. simpl. rewrite Hidx, Hlook. simpl. auto.
Qed.

End np_facts.

(** ** The interpolant *)

Module interp_facts.
Import np interpolate float_order np_facts.

Lemma insert_by_x_perm (p : float * float) (l : list (float * float)) :
  Permutation (insert_by_x p l) (p :: l).
Proof.
  induction l as [|q l IH]; cbn [insert_by_x]; [reflexivity|].
  destruct (lt (fst q) (fst p)); [|reflexivity].
  rewrite IH. apply perm_swap.
Qed.

Lemma sort_by_x_perm (l : list (float * float)) : Permutation (sort_by_x l) l.
Proof.
  induction l as [|p l IH]; cbn [sort_by_x]; [reflexivity|].
  rewrite insert_by_x_perm, IH. reflexivity.
Qed.

(** Columns that already increase strictly are left as they are. *)
Lemma sort_by_x_sorted (l : list (float * float)) :
  StronglySorted (fun p q => (fst p <? fst q)%float = true) l -> sort_by_x l = l.
Proof.
  induction 1 as [|p l Hs IH Hall]; [reflexivity|].
  cbn [sort_by_x]. rewrite IH.
  destruct l as [|q l']; [reflexivity|]. cbn [insert_by_x].
  apply Forall_inv in Hall. unfold lt.
  rewrite (ltb_asym _ _ Hall), (ltb_not_nan_l _ _ Hall). reflexivity.
Qed.

Lemma fst_combine {A B} (xs : list A) :
  forall ys : list B, length xs = length ys -> fst <$> combine xs ys = xs.
Proof.
  induction xs as [|x xs IH]; intros [|y ys] E; try discriminate E; [reflexivity|].
  cbn. f_equal. apply IH. injection E as E. exact E.
Qed.

Lemma snd_combine {A B} (xs : list A) :
  forall ys : list B, length xs = length ys -> snd <$> combine xs ys = ys.
Proof.
  induction xs as [|x xs IH]; intros [|y ys] E; try discriminate E; [reflexivity|].
  cbn. f_equal. apply IH. injection E as E. exact E.
Qed.

Lemma combine_sorted (xs : list float) :
  forall ys : list float,
    length xs = length ys ->
    strictly_increasing xs ->
    StronglySorted (fun p q => (fst p <? fst q)%float = true) (combine xs ys).
Proof.
  induction xs as [|x xs IH]; intros [|y ys] E Hs; try discriminate E; [constructor|].
  injection E as E. unfold strictly_increasing in Hs.
  apply StronglySorted_inv in Hs as [Hs Hall].
  cbn [combine]. constructor; [apply IH; assumption|].
  apply Forall_forall. intros [x' y'] Hin. cbn [fst].
  apply list_elem_of_In, in_combine_l in Hin.
  eapply Forall_forall in Hall; [exact Hall|]. apply list_elem_of_In. exact Hin.
Qed.

Lemma last_app_cons {A} (l1 l2 : list A) (a d : A) :
  List.last (l1 ++ a :: l2) d = List.last (a :: l2) d.
Proof.
  induction l1 as [|b l1 IH]; [reflexivity|].
  rewrite <- IH. cbn [app List.last]. destruct (l1 ++ a :: l2) eqn:E; [|reflexivity].
  destruct l1; discriminate E.
Qed.

Lemma Forall_last {A} (P : A -> Prop) (l : list A) (d : A) :
  l <> [] -> Forall P l -> P (List.last l d).
Proof.
  induction l as [|a l IH]; [congruence|]. intros _ Hall.
  apply Forall_cons_1 in Hall as [Ha Hl].
  destruct l as [|b l']; [exact Ha|]. apply IH; [discriminate|exact Hl].
Qed.

Lemma Forall_hd {A} (P : A -> Prop) (l : list A) (d : A) :
  l <> [] -> Forall P l -> P (hd d l).
Proof. destruct l; [congruence|]. intros _ H. apply Forall_inv in H. exact H. Qed.

(** What the constructor builds from two one-dimensional arrays of equal
    length with at least two entries. *)
Lemma interp1d_init_vectors (xs ys : list float) :
  length xs = length ys ->
  (2 <= length xs)%nat ->
  interp1d_init (vector xs) (vector ys) =
  Ok {| x := fst <$> sort_by_x (combine xs ys); y := snd <$> sort_by_x (combine xs ys) |}.
Proof.
  intros E Hn. unfold interp1d_init. rewrite !as_vector_vector.
  cbn [of_option mbind result_bind]. rewrite <- E, Nat.eqb_refl. cbn [negb].
  destruct (Nat.ltb_spec (length xs) 2) as [?|_]; [lia|]. reflexivity.
Qed.

Lemma interp1d_init_short (xs ys : list float) :
  length xs = length ys ->
  (length xs < 2)%nat ->
  interp1d_init (vector xs) (vector ys) =
  Raise (ValueError "x and y arrays must have at least 2 entries").
Proof.
  intros E Hn. unfold interp1d_init. rewrite !as_vector_vector.
  cbn [of_option mbind result_bind]. rewrite <- E, Nat.eqb_refl. cbn [negb].
  destruct (Nat.ltb_spec (length xs) 2) as [_|?]; [|lia]. reflexivity.
Qed.

(** A query below every sample, or above every sample, is refused. *)
Lemma interp1d_out_of_range (xs ys : list float) (ef : float) :
  length xs = length ys ->
  Forall (fun e => (ef <? e)%float = true) xs \/ Forall (fun e => (e <? ef)%float = true) xs ->
  exists msg,
    (interp1d_init (vector xs) (vector ys) ≫= fun g => interp1d_call g ef)
      = Raise (ValueError msg) /\
    ((2 <= length xs)%nat ->
     msg = "A value in x_new is below the interpolation range." \/
     msg = "A value in x_new is above the interpolation range.").
Proof.
  intros E Hout.
  destruct (Nat.lt_ge_cases (length xs) 2) as [Hn|Hn].
  { rewrite (interp1d_init_short xs ys E Hn). eexists. split; [reflexivity|]. lia. }
  rewrite (interp1d_init_vectors xs ys E Hn). cbn [mbind result_bind].
  unfold interp1d_call. cbn [x y].
  set (sx := fst <$> sort_by_x (combine xs ys)).
  assert (Hp : Permutation xs sx).
  { unfold sx. rewrite sort_by_x_perm, (fst_combine xs ys E). reflexivity. }
  assert (Hne : sx <> []).
  { intros Hnil. apply Permutation_length in Hp. rewrite Hnil in Hp. cbn in Hp. lia. }
  destruct Hout as [Hlo|Hhi].
  - rewrite Hp in Hlo. rewrite (Forall_hd _ sx nan Hne Hlo).
    eexists. split; [reflexivity|]. intros _. left. reflexivity.
  - rewrite Hp in Hhi.
    rewrite (ltb_asym _ _ (Forall_hd _ sx nan Hne Hhi)).
    rewrite (Forall_last _ sx nan Hne Hhi).
    eexists. split; [reflexivity|]. intros _. right. reflexivity.
Qed.

Lemma scan_app (key : float) (l1 l2 : list float) :
  forall i : nat,
    Forall (fun a => (a <=? key)%float = true) l1 ->
    scan key (l1 ++ l2) i = scan key l2 (i + length l1).
Proof.
  induction l1 as [|a l1 IH]; intros i Hall.
  - cbn. f_equal. lia.
  - apply Forall_cons_1 in Hall as [Ha Hl]. cbn [app scan]. rewrite Ha, (IH _ Hl).
    f_equal. cbn [length]. lia.
Qed.

Lemma scan_stop (key : float) (l : list float) (i : nat) :
  Forall (fun b => (key <? b)%float = true) l -> scan key l i = i.
Proof.
  destruct l as [|b l]; [reflexivity|]. intros Hall. apply Forall_inv in Hall.
  cbn [scan]. rewrite (ltb_not_leb _ _ Hall). reflexivity.
Qed.

(** On a strictly increasing mesh of at least two points, the interpolant
    built by [interp1d] takes at a mesh point the value stored there. *)
Lemma interp1d_at_sample (xs ys : list float) (k : nat) (e v : float) :
  length xs = length ys ->
  (2 <= length xs)%nat ->
  strictly_increasing xs ->
  xs !! k = Some e ->
  ys !! k = Some v ->
  (interp1d_init (vector xs) (vector ys) ≫= fun g => interp1d_call g e) = Ok v.
Proof.
  intros E Hn Hs Hx Hy.
  rewrite (interp1d_init_vectors xs ys E Hn). cbn [mbind result_bind].
  rewrite (sort_by_x_sorted _ (combine_sorted xs ys E Hs)).
  rewrite (fst_combine xs ys E), (snd_combine xs ys E).
  unfold interp1d_call. cbn [x y].
  pose proof (lookup_lt_Some _ _ _ Hx) as Hk.
  pose proof (take_drop_middle _ _ _ Hx) as Hsplit.
  set (pre := take k xs) in Hsplit. set (post := drop (S k) xs) in Hsplit.
  assert (Hpre : length pre = k) by (unfold pre; rewrite length_take; lia).
  assert (Hlen : length xs = (length pre + S (length post))%nat).
  { rewrite <- Hsplit at 1. rewrite length_app. reflexivity. }
  unfold strictly_increasing in Hs. rewrite <- Hsplit in Hs.
  assert (Hlt_pre : Forall (fun a => (a <? e)%float = true) pre).
  { apply Forall_forall. intros a Ha.
    assert (He : e ∈ e :: post) by left.
    exact (StronglySorted_app_1_elem_of (fun a b => (a <? b)%float = true)
             pre (e :: post) a e Hs Ha He). }
  assert (Hlt_post : Forall (fun b => (e <? b)%float = true) post).
  { apply StronglySorted_app_1_r in Hs. apply StronglySorted_inv in Hs as [_ H]. exact H. }
  assert (Heq : (e =? e)%float = true).
  { destruct pre as [|a pre'].
    - destruct post as [|b post']; [cbn in Hlen; lia|].
      apply Forall_inv in Hlt_post. exact (ltb_eqb_l _ _ Hlt_post).
    - apply Forall_inv in Hlt_pre. exact (ltb_eqb_r _ _ Hlt_pre). }
  assert (Hnan : PrimFloat.is_nan e = false).
  { unfold PrimFloat.is_nan. rewrite Heq. reflexivity. }
  assert (Hhd : (e <? hd nan xs)%float = false).
  { rewrite <- Hsplit. destruct pre as [|a pre']; cbn [app hd].
    - apply ltb_irrefl.
    - apply Forall_inv in Hlt_pre. exact (ltb_asym _ _ Hlt_pre). }
  assert (Hlast : (List.last xs nan <? e)%float = false).
  { rewrite <- Hsplit, last_app_cons. destruct post as [|b post'].
    - apply ltb_irrefl.
    - apply ltb_asym. apply (Forall_last _ (b :: post') nan) in Hlt_post; [|discriminate].
      exact Hlt_post. }
  assert (Hscan : scan e (tl xs) 1 = S k).
  { rewrite <- Hsplit. destruct pre as [|a pre']; cbn [app tl].
    - rewrite (scan_stop _ _ _ Hlt_post). cbn in Hpre. lia.
    - change (pre' ++ e :: post) with (pre' ++ [e] ++ post). rewrite app_assoc.
      rewrite scan_app.
      + rewrite (scan_stop _ _ _ Hlt_post), length_app. cbn [length] in Hpre |- *. lia.
      + apply Forall_app. split.
        * apply Forall_cons_1 in Hlt_pre as [_ H]. eapply Forall_impl; [exact H|].
          intros a'. apply ltb_leb.
        * constructor; [apply eqb_leb, Heq|constructor]. }
  rewrite Hhd, Hlast. f_equal.
  unfold interp, binary_search. rewrite Hnan, Hlast, Hhd, Hscan.
  replace (Z.of_nat (S k) - 1) with (Z.of_nat k) by lia.
  destruct (Z.eqb_spec (Z.of_nat k) (-1)) as [?|_]; [lia|].
  destruct (Z.eqb_spec (Z.of_nat k) (Z.of_nat (length xs))) as [?|_]; [lia|].
  rewrite Nat2Z.id, !nth_lookup, Hx, Hy.
  change (default nan (Some e)) with e. change (default nan (Some v)) with v.
  rewrite Heq.
  destruct (Z.of_nat k =? Z.of_nat (length xs) - 1); reflexivity.
Qed.

End interp_facts.

(** ** The reader and the file object *)

Module rta_facts.
Import np netcdf iotools abu interpolate rta np_facts interp_facts.

Lemma axis_of_range (c : ascii) (k : Z) : axis_of c = Ok k -> 0 <= k < 3.
Proof.
  unfold axis_of. repeat case_match; intros E; inversion E; lia.
Qed.

Lemma s2itup_range (component : string) (i j : Z) :
  s2itup component = Ok (i, j) -> 0 <= i < 3 /\ 0 <= j < 3.
Proof.
  destruct component as [|a [|b [|? ?]]]; simpl; try discriminate.
  destruct (axis_of a) as [i'|] eqn:Ea; simpl; [|discriminate].
  destruct (axis_of b) as [j'|] eqn:Eb; simpl; [|discriminate].
  intros E. injection E as <- <-.
  split; eapply axis_of_range; eassumption.
Qed.

Lemma read_variable_open (r : RtaReader) (name : string) (a : ndarray float) :
  isopen (base r) = true ->
  variables (rootgrp (base r)) !! name = Some a ->
  read_variable r name = Ok a.
Proof.
  intros Ho Hv. unfold read_variable, iotools.read_variable. rewrite Ho, Hv. reflexivity.
Qed.

(** What [read_mobility] returns on an open, well-formed file for
    subscripts inside the axes; shared by the statements below. *)
Lemma read_mobility_ok (r : RtaReader) (n_rta n_sppol n_temp n_w : nat)
    (eh itemp spin irta i j : Z) (component : string) :
  isopen (base r) = true ->
  schema (rootgrp (base r)) n_rta n_sppol n_temp n_w ->
  0 <= irta < Z.of_nat n_rta -> 0 <= spin < Z.of_nat n_sppol -> 0 <= eh < 2 ->
  0 <= itemp < Z.of_nat n_temp ->
  s2itup component = Ok (i, j) ->
  exists var mesh slice,
    variables (rootgrp (base r)) !! "edos_mesh" = Some (vector mesh) /\
    variables (rootgrp (base r)) !! "mobility" = Some var /\
    read_mobility r eh itemp component spin irta = Ok (vector mesh, vector slice) /\
    descend var (Z.to_nat <$> [irta; spin; eh; itemp; j; i]) = Some (vector slice) /\
    length mesh = n_w /\ length slice = n_w.
Proof.
  intros Ho [(wvals & Hm & Hms) (var & Hv & Hvs)] Hrta Hspin Heh Htemp Hc.
  destruct (s2itup_range _ _ _ Hc) as [Hi Hj].
  destruct (has_shape_vector _ _ Hms) as (mesh & -> & Hlen).
  destruct (getitem_slice [n_rta; n_sppol; 2; n_temp; 3; 3]%nat n_w var
              [irta; spin; eh; itemp; j; i] Hvs) as (slice & Hget & Hdesc & Hn).
  { repeat constructor; lia. }
  exists var, mesh, slice. repeat split; try assumption.
  unfold read_mobility. rewrite Hc. cbn [mbind result_bind].
  rewrite (read_variable_open r _ _ Ho Hm), (read_variable_open r _ _ Ho Hv).
  cbn [mbind result_bind]. cbn [fmap list_fmap app] in Hget. rewrite Hget. reflexivity.
Qed.

(** C1.  On an open file that follows the schema, for subscripts inside the
    declared dimensions and a component label that [s2itup] maps to
    [(i, j)], [read_mobility] returns the stored energy mesh together with
    the one-dimensional array found in the stored [mobility] array at
    [irta, spin, eh, itemp, j, i]; that array has as many entries as the
    energy mesh, namely the [edos_nw] of the schema. *)
Theorem read_mobility_slice (r : RtaReader) (n_rta n_sppol n_temp n_w : nat)
    (eh itemp spin irta i j : Z) (component : string) :
  isopen (base r) = true ->
  schema (rootgrp (base r)) n_rta n_sppol n_temp n_w ->
  0 <= irta < Z.of_nat n_rta -> 0 <= spin < Z.of_nat n_sppol -> 0 <= eh < 2 ->
  0 <= itemp < Z.of_nat n_temp ->
  s2itup component = Ok (i, j) ->
  exists var wvals slice,
    variables (rootgrp (base r)) !! "mobility" = Some var /\
    read_mobility r eh itemp component spin irta = Ok (wvals, vector slice) /\
    descend var (Z.to_nat <$> [irta; spin; eh; itemp; j; i]) = Some (vector slice) /\
    len wvals = Ok n_w /\ length slice = n_w.
Proof.
  intros Ho Hs Hrta Hspin Heh Htemp Hc.
  destruct (read_mobility_ok r _ _ _ _ _ _ _ _ _ _ _ Ho Hs Hrta Hspin Heh Htemp Hc)
    as (var & mesh & slice & Hm & Hv & Hread & Hdesc & Hlm & Hls).
  exists var, (vector mesh), slice. repeat split; try assumption.
  rewrite len_vector, Hlm. reflexivity.
Qed.

Lemma sample_schema : schema (samples.dataset samples.mesh4 8 0) 2 1 3 4.
Proof.
  split.
  - exists (vector samples.mesh4). split; vm_compute; reflexivity.
  - exists (samples.tabulate [2; 1; 2; 3; 3; 3; 4]%nat
              (fun pos => samples.of_Z (0 + samples.digits pos))).
    split; vm_compute; reflexivity.
Qed.

(** The scenario of the specification: electrons, temperature index 1,
    component [xx], spin 0, SERTA, on a file with [nrta=2], [ntemp=3]. *)
Lemma read_mobility_slice_scenario :
  exists var wvals slice,
    variables (samples.dataset samples.mesh4 8 0) !! "mobility" = Some var /\
    read_mobility (reader samples.k8) 0 1 "xx" 0 0 = Ok (wvals, vector slice) /\
    descend var [0; 0; 0; 1; 0; 0]%nat = Some (vector slice) /\
    len wvals = Ok 4%nat /\ length slice = 4%nat.
Proof.
  apply (read_mobility_slice (reader samples.k8) 2 1 3 4 0 1 0 0 0 0 "xx").
  - reflexivity.
  - apply sample_schema.
  - lia.
  - lia.
  - lia.
  - lia.
  - reflexivity.
Defined.

(** C2 (evaluation).  On the sample file [read_mobility] hands back the
    stored mesh, in Hartree, while the mesh that [RtaFile.__init__] keeps in
    [edos_mesh_eV] is that mesh times [Ha_to_eV]; the two differ. *)
Lemma read_mobility_mesh_in_hartree :
  samples.open_file samples.fs "k8_RTA.nc" = Ok samples.k8 /\
  fst <$> read_mobility (reader samples.k8) 0 1 "xx" 0 0 = Ok (vector [0; 0.25; 0.5; 0.75]%float) /\
  edos_mesh_eV samples.k8 =
    vector [0 * samples.Ha; 0.25 * samples.Ha; 0.5 * samples.Ha; 0.75 * samples.Ha]%float /\
  fst <$> read_mobility (reader samples.k8) 0 1 "xx" 0 0 <> Ok (edos_mesh_eV samples.k8).
Proof.
  split; [vm_compute; reflexivity|].
  split; [vm_compute; reflexivity|].
  split; [vm_compute; reflexivity|].
  intros E.
  apply (f_equal (fun m => match m with
                           | Ok (Arr (_ :: Item v :: _)) => (v <? 1)%float
                           | _ => false
                           end)) in E.
  vm_compute in E. discriminate E.
Qed.

(** The mesh of [read_mobility] is the stored one on every file. *)
Lemma read_mobility_mesh_is_stored (r : RtaReader) (eh itemp spin irta : Z) (component : string)
    (wvals mobility : ndarray float) :
  read_mobility r eh itemp component spin irta = Ok (wvals, mobility) ->
  isopen (base r) = true /\ variables (rootgrp (base r)) !! "edos_mesh" = Some wvals.
Proof.
  unfold read_mobility, read_variable, iotools.read_variable.
  destruct (s2itup component) as [[i j]|]; cbn [mbind result_bind]; [|discriminate].
  destruct (isopen (base r)); cbn [mbind result_bind]; [|discriminate].
  destruct (variables (rootgrp (base r)) !! "edos_mesh") as [w|];
    cbn [mbind result_bind of_option]; [|discriminate].
  destruct (variables (rootgrp (base r)) !! "mobility") as [v|];
    cbn [mbind result_bind of_option]; [|discriminate].
  match goal with |- context [getitem v ?subs] => destruct (getitem v subs) end;
    cbn [mbind result_bind]; [|discriminate].
  intros E. injection E as <- <-. split; reflexivity.
Qed.

Lemma map_vector {A B} (g : A -> B) (xs : list A) : np.map g (vector xs) = vector (g <$> xs).
Proof.
  unfold vector. cbn [np.map]. f_equal.
  induction xs as [|x xs IH]; [reflexivity|]. cbn. f_equal. exact IH.
Qed.

Lemma exec_tmesh (f : RtaFile) (c : call) : RtaFile_tmesh (fst (exec f c)) = RtaFile_tmesh f.
Proof. destruct c; reflexivity. Qed.

Lemma run_tmesh (cs : list call) :
  forall f : RtaFile, RtaFile_tmesh (fst (run f cs)) = RtaFile_tmesh f.
Proof.
  induction cs as [|c cs IH]; intros f; [reflexivity|].
  cbn [run]. destruct (exec f c) as [f1 o] eqn:E1.
  destruct (run f1 cs) as [f2 os] eqn:E2. cbn [fst].
  change f2 with (fst (f2, os)). rewrite <- E2, IH.
  change f1 with (fst (f1, o)). rewrite <- E1. apply exec_tmesh.
Qed.

(** C6.  For a file object built from a path whose [kTmesh] variable holds
    the entries [raw]: the temperature mesh is [raw] divided entry by entry
    by [kb_HaK]; [ntemp] is the number of entries of [kTmesh], which is the
    size of its only dimension; and no sequence of calls on the object
    changes the mesh. *)
Theorem tmesh_is_kTmesh_over_kb `{Units} (fs : gmap string Dataset) (path : string)
    (ds : Dataset) (raw : list float) (f : RtaFile) :
  fs !! path = Some ds ->
  variables ds !! "kTmesh" = Some (vector raw) ->
  RtaFile_init fs path = Ok f ->
  RtaFile_tmesh f = vector ((fun kT => kT / kb_HaK)%float <$> raw) /\
  (forall k kT, raw !! k = Some kT ->
     descend (RtaFile_tmesh f) [k] = Some (Item (kT / kb_HaK)%float)) /\
  ntemp f = Ok (length raw) /\
  forall cs, RtaFile_tmesh (fst (run f cs)) = RtaFile_tmesh f.
Proof.
  intros Hfs Hk Hinit.
  assert (Ht : RtaFile_tmesh f = vector ((fun kT => kT / kb_HaK)%float <$> raw)).
  { unfold RtaFile_init, RtaReader_init, ETSF_Reader_init in Hinit. rewrite Hfs in Hinit.
    cbn [mbind result_bind] in Hinit. unfold iotools.read_dimvalue, iotools.read_value in Hinit.
    cbn [isopen rootgrp] in Hinit.
    destruct (dimensions ds !! "nsppol") as [n|]; cbn in Hinit; [|discriminate].
    rewrite Hk in Hinit. cbn in Hinit.
    repeat match type of Hinit with
           | context [of_option ?e ?o] => destruct o; cbn in Hinit; [|discriminate]
           end.
    injection Hinit as <-. unfold RtaFile_tmesh. cbn [reader tmesh]. apply map_vector. }
  split; [exact Ht|]. split; [|split].
  - intros k kT Hl. rewrite Ht. unfold vector. cbn [descend].
    rewrite !list_lookup_fmap, Hl. reflexivity.
  - unfold ntemp. rewrite Ht, len_vector, length_fmap. reflexivity.
  - intros cs. apply run_tmesh.
Qed.

Lemma tmesh_is_kTmesh_over_kb_sample :
  RtaFile_tmesh samples.k8 =
    vector ((fun kT => kT / samples.kb)%float <$>
            ((fun t => t * samples.kb)%float <$> [100; 200; 300]%float)) /\
  (forall k kT, ((fun t => t * samples.kb)%float <$> [100; 200; 300]%float) !! k = Some kT ->
     descend (RtaFile_tmesh samples.k8) [k] = Some (Item (kT / samples.kb)%float)) /\
  ntemp samples.k8 = Ok 3%nat /\
  forall cs, RtaFile_tmesh (fst (run samples.k8 cs)) = RtaFile_tmesh samples.k8.
Proof.
  apply (tmesh_is_kTmesh_over_kb (H := samples.units)
           samples.fs "k8_RTA.nc" (samples.dataset samples.mesh4 8 0)).
  - vm_compute. reflexivity.
  - vm_compute. reflexivity.
  - vm_compute. reflexivity.
Defined.

(** *** Closing *)

Lemma exec_closed (g : RtaFile) (c : call) :
  is_open g = false ->
  is_open (fst (exec g c)) = false /\ closed_outcome g c (snd (exec g c)).
Proof.
  unfold is_open. intros Hc.
  destruct c as [| | |name|name|name|eh itemp component spin irta
                 |eh itemp component [ef|] irta spin];
    cbn [exec fst snd closed_outcome]; (split; [first [exact Hc|reflexivity]|]);
    try reflexivity.
  - unfold read_dimvalue, iotools.read_dimvalue. rewrite Hc. reflexivity.
  - unfold read_value, iotools.read_value. rewrite Hc. reflexivity.
  - unfold read_variable, iotools.read_variable. rewrite Hc. reflexivity.
  - unfold read_mobility, read_variable, iotools.read_variable. rewrite Hc.
    destruct (s2itup component) as [[i j]|e]; reflexivity.
  - unfold get_mobility_mu, read_mobility, read_variable, iotools.read_variable.
    rewrite Hc. destruct (s2itup component) as [[i j]|e]; reflexivity.
  - unfold get_mobility_mu, read_value, iotools.read_value. rewrite Hc. reflexivity.
Qed.

Lemma closed_outcome_same_tmesh (g g' : RtaFile) (c : call) (o : result value) :
  RtaFile_tmesh g' = RtaFile_tmesh g -> closed_outcome g' c o -> closed_outcome g c o.
Proof.
  intros E. destruct c as [| | |?|?|?|? ? ? ? ?|? ? ? [?|] ? ?];
    cbn [closed_outcome]; unfold ntemp; rewrite ?E; exact (fun h => h).
Qed.

Lemma run_closed (cs : list call) :
  forall g : RtaFile,
    is_open g = false ->
    is_open (fst (run g cs)) = false /\ Forall2 (closed_outcome g) cs (snd (run g cs)).
Proof.
  induction cs as [|c cs IH]; intros g Hg.
  - split; [exact Hg|constructor].
  - cbn [run]. destruct (exec_closed g c Hg) as [H1 Ho].
    pose proof (exec_tmesh g c) as Ht.
    destruct (exec g c) as [g1 o]. cbn [fst snd] in H1, Ho, Ht.
    destruct (IH g1 H1) as [H2 Hos].
    destruct (run g1 cs) as [g2 os]. cbn [fst snd] in H2, Hos |- *.
    split; [exact H2|]. constructor; [exact Ho|].
    eapply Forall2_impl; [exact Hos|].
    intros c' o'. exact (closed_outcome_same_tmesh g g1 c' o' Ht).
Qed.

(** C8 (as stated, refuted).  It is not the case that every call other than
    [close] raises [ClosedError] on a closed file: the temperature mesh,
    computed when the object was built, is still served. *)
Lemma closed_file_serves_tmesh :
  ~ (forall (f : RtaFile) (c : call),
       c <> Close -> snd (exec (close f) c) = Raise ClosedError).
Proof.
  intros Hall. specialize (Hall samples.k8 Tmesh). cbn [exec snd] in Hall.
  discriminate Hall; discriminate.
Qed.

(** C8 (amended).  [close] leads to the closed state and is idempotent; no
    sequence of calls leaves the closed state; and in it every call that
    goes to the file raises ([ClosedError], or the rejection of the
    component label that precedes the access to the file), while the
    attributes computed at construction are served as before. *)
Theorem closed_file_stays_closed (f : RtaFile) (cs : list call) :
  is_open (close f) = false /\
  close (close f) = close f /\
  is_open (fst (run (close f) cs)) = false /\
  Forall2 (closed_outcome f) cs (snd (run (close f) cs)) /\
  Forall2 (fun c o => reads_file c = true -> is_ok o = false) cs (snd (run (close f) cs)).
Proof.
  assert (Hc : is_open (close f) = false) by reflexivity.
  destruct (run_closed cs (close f) Hc) as [H1 H2].
  split; [exact Hc|]. split; [reflexivity|]. split; [exact H1|]. split.
  - eapply Forall2_impl; [exact H2|]. intros c o.
    exact (closed_outcome_same_tmesh f (close f) c o eq_refl).
  - eapply Forall2_impl; [exact H2|]. intros c o Ho Hr.
    destruct c as [| | |?|?|?|? ? component ? ?|? ? component [?|] ? ?];
      cbn [closed_outcome reads_file] in Ho, Hr; try discriminate Hr;
      try (rewrite Ho; reflexivity);
      destruct (s2itup component); rewrite Ho; reflexivity.
Qed.

(** *** The chemical potential of [get_mobility_mu] *)

(** C5.  Without [ef], [get_mobility_mu] takes as query point entry
    [itemp] of the stored [transport_mu_e] and answers as it does when that
    value is passed; with [ef], it reads the mesh and the slice with
    [read_mobility], builds the interpolant on them and evaluates it at
    [ef]. *)
Theorem get_mobility_mu_query_point (f : RtaFile) (eh itemp : Z) (component : string)
    (irta spin : Z) (mu : list float) :
  is_open f = true ->
  variables (rootgrp (base (reader f))) !! "transport_mu_e" = Some (vector mu) ->
  0 <= itemp < Z.of_nat (length mu) ->
  (exists mu_T, mu !! Z.to_nat itemp = Some mu_T /\
     get_mobility_mu f eh itemp component None irta spin =
     get_mobility_mu f eh itemp component (Some mu_T) irta spin) /\
  (forall ef,
     get_mobility_mu f eh itemp component (Some ef) irta spin =
     read_mobility (reader f) eh itemp component spin irta ≫= fun p =>
     interp1d_init (fst p) (snd p) ≫= fun g => interp1d_call g ef).
Proof.
  intros Ho Hmu Hk. split.
  - destruct (index_in_range (Item <$> mu) itemp) as (a & Hl & Hi).
    { rewrite length_fmap. exact Hk. }
    rewrite list_lookup_fmap in Hl.
    destruct (mu !! Z.to_nat itemp) as [mu_T|] eqn:E; [|discriminate Hl].
    injection Hl as <-. exists mu_T. split; [reflexivity|].
    unfold get_mobility_mu at 1. unfold read_value, iotools.read_value.
    unfold is_open in Ho. rewrite Ho, Hmu. cbn [of_option mbind result_bind].
    unfold vector. cbn [getitem]. rewrite Hi. reflexivity.
  - intros ef. unfold get_mobility_mu. cbn [mbind result_bind].
    destruct (read_mobility (reader f) eh itemp component spin irta) as [[emesh mobility]|e];
      reflexivity.
Qed.

Lemma get_mobility_mu_query_point_sample :
  (exists mu_T, [0.25; 0.375; 0.5]%float !! Z.to_nat 1 = Some mu_T /\
     get_mobility_mu samples.k8 0 1 "xx" None 0 0 =
     get_mobility_mu samples.k8 0 1 "xx" (Some mu_T) 0 0) /\
  (forall ef,
     get_mobility_mu samples.k8 0 1 "xx" (Some ef) 0 0 =
     read_mobility (reader samples.k8) 0 1 "xx" 0 0 ≫= fun p =>
     interp1d_init (fst p) (snd p) ≫= fun g => interp1d_call g ef).
Proof.
  apply (get_mobility_mu_query_point samples.k8 0 1 "xx" 0 0 [0.25; 0.375; 0.5]%float).
  - reflexivity.
  - vm_compute. reflexivity.
  - simpl. lia.
Defined.

(** *** Interpolation at the chemical potential *)

Lemma vector_inj {A} (xs ys : list A) : vector xs = vector ys -> xs = ys.
Proof.
  intros E. apply (f_equal as_vector) in E. rewrite !as_vector_vector in E.
  injection E as E. exact E.
Qed.

(** [get_mobility_mu] with a given [ef], once [read_mobility] has answered. *)
Lemma get_mobility_mu_some (f : RtaFile) (eh itemp : Z) (component : string) (ef : float)
    (irta spin : Z) (emesh mobility : ndarray float) :
  read_mobility (reader f) eh itemp component spin irta = Ok (emesh, mobility) ->
  get_mobility_mu f eh itemp component (Some ef) irta spin =
  interp1d_init emesh mobility ≫= fun g => interp1d_call g ef.
Proof. intros E. unfold get_mobility_mu. cbn [mbind result_bind]. rewrite E. reflexivity. Qed.

(** C3.  On an open file that follows the schema, for subscripts inside the
    declared dimensions and a valid component label: a chemical potential
    below every point of the energy mesh, or above every point of it, makes
    [get_mobility_mu] raise a [ValueError] instead of returning a value;
    when the mesh has the two points that an interpolant needs, it is the
    error of a query outside the interpolation range. *)
Theorem get_mobility_mu_out_of_range (f : RtaFile) (n_rta n_sppol n_temp n_w : nat)
    (eh itemp spin irta i j : Z) (component : string) (mesh : list float) (ef : float) :
  is_open f = true ->
  schema (rootgrp (base (reader f))) n_rta n_sppol n_temp n_w ->
  0 <= irta < Z.of_nat n_rta -> 0 <= spin < Z.of_nat n_sppol -> 0 <= eh < 2 ->
  0 <= itemp < Z.of_nat n_temp ->
  s2itup component = Ok (i, j) ->
  variables (rootgrp (base (reader f))) !! "edos_mesh" = Some (vector mesh) ->
  Forall (fun e => (ef <? e)%float = true) mesh \/
  Forall (fun e => (e <? ef)%float = true) mesh ->
  exists msg,
    get_mobility_mu f eh itemp component (Some ef) irta spin = Raise (ValueError msg) /\
    ((2 <= n_w)%nat ->
     msg = "A value in x_new is below the interpolation range." \/
     msg = "A value in x_new is above the interpolation range.").
Proof.
  intros Ho Hs Hrta Hspin Heh Htemp Hc Hmesh Hout.
  destruct (read_mobility_ok (reader f) _ _ _ _ _ _ _ _ _ _ _ Ho Hs Hrta Hspin Heh Htemp Hc)
    as (var & mesh' & slice & Hm & Hv & Hread & Hdesc & Hlm & Hls).
  assert (Hsame : mesh' = mesh) by (apply vector_inj; congruence). subst mesh'.
  destruct (interp1d_out_of_range mesh slice ef) as (msg & Hmsg & Hwhich);
    [congruence|exact Hout|].
  exists msg. split.
  - rewrite (get_mobility_mu_some _ _ _ _ _ _ _ _ _ Hread). exact Hmsg.
  - rewrite Hlm in Hwhich. exact Hwhich.
Qed.

Lemma get_mobility_mu_out_of_range_sample :
  exists msg,
    get_mobility_mu samples.k8 0 1 "xx" (Some 1%float) 0 0 = Raise (ValueError msg) /\
    ((2 <= 4)%nat ->
     msg = "A value in x_new is below the interpolation range." \/
     msg = "A value in x_new is above the interpolation range.").
Proof.
  apply (get_mobility_mu_out_of_range samples.k8 2 1 3 4 0 1 0 0 0 0 "xx" samples.mesh4 1%float).
  - reflexivity.
  - apply sample_schema.
  - lia.
  - lia.
  - lia.
  - lia.
  - reflexivity.
  - vm_compute. reflexivity.
  - right. repeat constructor.
Defined.

(** C4.  On an open file that follows the schema, whose energy mesh
    increases strictly and has at least two points, for subscripts inside
    the declared dimensions and a valid component label: at the [k]-th mesh
    point, [get_mobility_mu] returns the [k]-th entry of the slice that
    [read_mobility] returns. *)
Theorem get_mobility_mu_at_sample (f : RtaFile) (n_rta n_sppol n_temp n_w : nat)
    (eh itemp spin irta i j : Z) (component : string) (mesh : list float) (k : nat) :
  is_open f = true ->
  schema (rootgrp (base (reader f))) n_rta n_sppol n_temp n_w ->
  0 <= irta < Z.of_nat n_rta -> 0 <= spin < Z.of_nat n_sppol -> 0 <= eh < 2 ->
  0 <= itemp < Z.of_nat n_temp ->
  s2itup component = Ok (i, j) ->
  variables (rootgrp (base (reader f))) !! "edos_mesh" = Some (vector mesh) ->
  strictly_increasing mesh ->
  (2 <= length mesh)%nat ->
  (k < length mesh)%nat ->
  exists slice e_k v_k,
    read_mobility (reader f) eh itemp component spin irta = Ok (vector mesh, vector slice) /\
    mesh !! k = Some e_k /\
    slice !! k = Some v_k /\
    get_mobility_mu f eh itemp component (Some e_k) irta spin = Ok v_k.
Proof.
  intros Ho Hs Hrta Hspin Heh Htemp Hc Hmesh Hinc Hn Hk.
  destruct (read_mobility_ok (reader f) _ _ _ _ _ _ _ _ _ _ _ Ho Hs Hrta Hspin Heh Htemp Hc)
    as (var & mesh' & slice & Hm & Hv & Hread & Hdesc & Hlm & Hls).
  assert (Hsame : mesh' = mesh) by (apply vector_inj; congruence). subst mesh'.
  destruct (lookup_lt_is_Some_2 mesh k Hk) as [e_k He].
  destruct (lookup_lt_is_Some_2 slice k) as [v_k Hvk]; [lia|].
  exists slice, e_k, v_k. repeat split; try assumption.
  rewrite (get_mobility_mu_some _ _ _ _ _ _ _ _ _ Hread).
  apply (interp1d_at_sample mesh slice k); [congruence|assumption..].
Qed.

Lemma get_mobility_mu_at_sample_k8 :
  exists slice e_k v_k,
    read_mobility (reader samples.k8) 0 1 "xy" 0 0 = Ok (vector samples.mesh4, vector slice) /\
    samples.mesh4 !! 2%nat = Some e_k /\
    slice !! 2%nat = Some v_k /\
    get_mobility_mu samples.k8 0 1 "xy" (Some e_k) 0 0 = Ok v_k.
Proof.
  apply (get_mobility_mu_at_sample samples.k8 2 1 3 4 0 1 0 0 0 1 "xy" samples.mesh4 2).
  - reflexivity.
  - apply sample_schema.
  - lia.
  - lia.
  - lia.
  - lia.
  - reflexivity.
  - vm_compute. reflexivity.
  - unfold strictly_increasing. repeat constructor.
  - simpl. lia.
  - simpl. lia.
Defined.

End rta_facts.

(** ** The collection of the robot *)

Module robot_facts.
Import np netcdf iotools abu rta.

Section Sort.
Context {A : Type} (key : A -> Z).

Lemma insert_perm (a : A) (l : list A) : Permutation (Py.insert key a l) (a :: l).
Proof.
  induction l as [|b l IH]; cbn [Py.insert]; [reflexivity|].
  destruct (key b <? key a); [|reflexivity].
  rewrite IH. apply perm_swap.
Qed.

Lemma sort_perm (l : list A) : Permutation (Py.sort key l) l.
Proof.
  induction l as [|a l IH]; cbn [Py.sort]; [reflexivity|].
  rewrite insert_perm, IH. reflexivity.
Qed.

Lemma insert_hd (a b : A) (l : list A) :
  key b <= key a ->
  HdRel (fun p q => key p <= key q) b l ->
  HdRel (fun p q => key p <= key q) b (Py.insert key a l).
Proof.
  intros Hba Hl. destruct l as [|c l]; cbn [Py.insert].
  - constructor. exact Hba.
  - destruct (key c <? key a); constructor; [|exact Hba].
    apply HdRel_inv in Hl. exact Hl.
Qed.

Lemma insert_sorted (a : A) (l : list A) :
  Sorted (fun p q => key p <= key q) l ->
  Sorted (fun p q => key p <= key q) (Py.insert key a l).
Proof.
  induction 1 as [|b l Hs IH Hhd]; cbn [Py.insert].
  - repeat constructor.
  - destruct (Z.ltb_spec (key b) (key a)) as [Hlt|Hge].
    + constructor; [exact IH|]. apply insert_hd; [lia|exact Hhd].
    + constructor; [constructor; assumption|]. constructor. exact Hge.
Qed.

Lemma sort_sorted (l : list A) : Sorted (fun p q => key p <= key q) (Py.sort key l).
Proof.
  induction l as [|a l IH]; cbn [Py.sort]; [constructor|].
  apply insert_sorted, IH.
Qed.

(** The entries that share a key keep the order in which they came. *)
Lemma insert_stable (k : Z) (a : A) (l : list A) :
  filter (fun p => key p = k) (Py.insert key a l) = filter (fun p => key p = k) (a :: l).
Proof.
  induction l as [|b l IH]; cbn [Py.insert]; [reflexivity|].
  destruct (Z.ltb_spec (key b) (key a)) as [Hlt|_]; [|reflexivity].
  rewrite (filter_cons _ b), IH, !(filter_cons _ a), (filter_cons _ b).
  destruct (decide (key a = k)), (decide (key b = k)); try reflexivity. lia.
Qed.

Lemma sort_stable (k : Z) (l : list A) :
  filter (fun p => key p = k) (Py.sort key l) = filter (fun p => key p = k) l.
Proof.
  induction l as [|a l IH]; cbn [Py.sort]; [reflexivity|].
  rewrite insert_stable, !(filter_cons _ a), IH. reflexivity.
Qed.

End Sort.

Lemma for_each_Forall2 {A B} (g : A -> result B) (xs : list A) (bs : list B) :
  Forall2 (fun x b => g x = Ok b) xs bs -> Py.for_each g xs = Ok bs.
Proof.
  induction 1 as [|x b xs bs Hx _ IH]; [reflexivity|].
  cbn [Py.for_each]. rewrite Hx, IH. reflexivity.
Qed.

(** C7.  When the pair [(kptrlattx, mobility)] can be read from every
    member file, the list that [plot_mobility_conv] collects holds exactly
    these pairs, in ascending order of [kptrlattx], and pairs with the same
    [kptrlattx] stand in the order of their files. *)
Theorem plot_mobility_conv_res_sorted (abifiles : list RtaFile) (eh itemp spin i j : Z)
    (component : string) (pairs : list (Z * float)) :
  s2itup component = Ok (i, j) ->
  Forall2 (fun ncfile p => member_pair eh itemp spin 0 i j ncfile = Ok p) abifiles pairs ->
  exists res,
    plot_mobility_conv_res abifiles eh component itemp spin = Ok res /\
    Permutation pairs res /\
    Sorted (fun p q => fst p <= fst q) res /\
    forall k, filter (fun p => fst p = k) res = filter (fun p => fst p = k) pairs.
Proof.
  intros Hc Hall. exists (Py.sort fst pairs). split; [|split; [|split]].
  - unfold plot_mobility_conv_res. rewrite Hc. cbn [mbind result_bind].
    rewrite (for_each_Forall2 _ _ _ Hall). reflexivity.
  - symmetry. apply sort_perm.
  - apply sort_sorted.
  - intros k. apply sort_stable.
Qed.

Lemma plot_mobility_conv_res_sorted_sample :
  exists res,
    plot_mobility_conv_res [samples.k8; samples.k4; samples.k8b] 0 "xx" 0 0 = Ok res /\
    Permutation [(8, 0%float); (4, 1000000%float); (8, 2000000%float)] res /\
    Sorted (fun p q => fst p <= fst q) res /\
    forall k, filter (fun p => fst p = k) res =
              filter (fun p => fst p = k) [(8, 0%float); (4, 1000000%float); (8, 2000000%float)].
Proof.
  apply (plot_mobility_conv_res_sorted [samples.k8; samples.k4; samples.k8b] 0 0 0 0 0 "xx").
  - reflexivity.
  - constructor; [vm_compute; reflexivity|].
    constructor; [vm_compute; reflexivity|].
    constructor; [vm_compute; reflexivity|].
    constructor.
Defined.

End robot_facts.

(** ** The variable database of the lessons *)

Module lessons_facts.
Import lessons.

Lemma calls_cached (n : nat) (p : process) (ref : nat) :
  VARS_DATABASE p = Some ref -> calls n p = (replicate n (Ok ref), p).
Proof.
  intros Hv. induction n as [|n IH]; [reflexivity|].
  cbn [calls]. unfold get_abinit_variables. rewrite Hv, IH. reflexivity.
Qed.

(** C9.  Starting with [__VARS_DATABASE = None] and a loadable
    [abinit_vars.yml], the first call of [get_abinit_variables] constructs
    one [VariableDatabase], stores its address in the global and returns
    it; any number of further calls return that same address and leave the
    process as it is, so nothing more is constructed. *)
Theorem get_abinit_variables_singleton (p : process) (variables : list variable) (n : nat) :
  VARS_DATABASE p = None ->
  abinit_vars_yml p = Some variables ->
  exists ref p1,
    get_abinit_variables p = (Ok ref, p1) /\
    heap p1 = heap p ++ [load_vars variables] /\
    heap p1 !! ref = Some (load_vars variables) /\
    VARS_DATABASE p1 = Some ref /\
    calls n p1 = (replicate n (Ok ref), p1).
Proof.
  intros Hv Hy.
  exists (length (heap p)),
    {| abinit_vars_yml := abinit_vars_yml p; heap := heap p ++ [load_vars variables];
       VARS_DATABASE := Some (length (heap p)) |}.
  split; [|split; [|split; [|split]]].
  - unfold get_abinit_variables, VariableDatabase_init. rewrite Hv, Hy. reflexivity.
  - reflexivity.
  - cbn [heap]. rewrite lookup_app_r by lia. rewrite Nat.sub_diag. reflexivity.
  - reflexivity.
  - apply calls_cached. reflexivity.
Qed.

Lemma get_abinit_variables_singleton_sample :
  exists ref p1,
    get_abinit_variables (imported (Some [{| varname := "ecut"; defaultval := "None"; text := "" |}]))
      = (Ok ref, p1) /\
    heap p1 = [] ++ [load_vars [{| varname := "ecut"; defaultval := "None"; text := "" |}]] /\
    heap p1 !! ref = Some (load_vars [{| varname := "ecut"; defaultval := "None"; text := "" |}]) /\
    VARS_DATABASE p1 = Some ref /\
    calls 3 p1 = (replicate 3 (Ok ref), p1).
Proof.
  apply (get_abinit_variables_singleton
           (imported (Some [{| varname := "ecut"; defaultval := "None"; text := "" |}]))).
  - reflexivity.
  - reflexivity.
Defined.

End lessons_facts.

(** ** The CPU-count filter of the benchmarks *)

Module benchmarks_facts.
Import benchmarks.

(** C10.  [accept_mpi_omp] answers [True] exactly when the product of its
    two arguments is at least [min_ncpus] and, if [max_ncpus] is not
    [None], at most [max_ncpus]; it answers [False] exactly when one of
    the two bounds is violated. *)
Theorem accept_mpi_omp_iff (opts : options) (mpi_procs omp_threads : Z) :
  (fst (accept_mpi_omp opts mpi_procs omp_threads) = true <->
     min_ncpus opts <= mpi_procs * omp_threads /\
     (forall mx, max_ncpus opts = Some mx -> mpi_procs * omp_threads <= mx)) /\
  (fst (accept_mpi_omp opts mpi_procs omp_threads) = false <->
     mpi_procs * omp_threads < min_ncpus opts \/
     (exists mx, max_ncpus opts = Some mx /\ mx < mpi_procs * omp_threads)).
Proof.
  unfold accept_mpi_omp.
  destruct (Z.ltb_spec (mpi_procs * omp_threads) (min_ncpus opts)) as [Hlt|Hge].
  { cbn [fst]. split; split; intros H; try discriminate H; try lia; auto. }
  destruct (max_ncpus opts) as [mx|] eqn:Hmx.
  - destruct (Z.ltb_spec mx (mpi_procs * omp_threads)) as [Hgt|Hle]; cbn [fst].
    + split; split; intros H; try discriminate H; try reflexivity.
      * destruct H as [_ H]. specialize (H mx eq_refl). lia.
      * right. exists mx. split; [reflexivity|exact Hgt].
    + split; split; intros H; try discriminate H; try reflexivity.
      * split; [exact Hge|]. intros mx' E. injection E as <-. exact Hle.
      * destruct H as [?|(mx' & E & ?)]; [lia|]. injection E as <-. lia.
  - cbn [fst]. split; split; intros H; try discriminate H; try reflexivity.
    + split; [exact Hge|]. intros mx' E. discriminate E.
    + destruct H as [?|(mx' & E & ?)]; [lia|discriminate E].
Qed.

End benchmarks_facts.

(** ** Further properties of abipy/eph/rta.py *)

Module rta_extra.
Import np netcdf iotools abu interpolate rta np_facts rta_facts Pystr rta_helpers.


(** X2.  The name, the line style and the LaTeX label of a relaxation-time
    approximation exist for the same values of [irta], which are 0 and 1;
    elsewhere [irta2s] raises [KeyError] and [style_for_irta] raises
    [ValueError].  A style has a marker exactly when one is asked for. *)
Theorem irta_domain (irta : Z) (flag : bool) :
  (is_ok (irta2s irta) = true <-> irta = 0 \/ irta = 1) /\
  is_ok (style_for_irta irta flag) = is_ok (irta2s irta) /\
  is_ok (irta2latextau irta flag) = is_ok (irta2s irta) /\
  (is_ok (irta2s irta) = false ->
     irta2s irta = Raise (KeyError (pretty irta)) /\
     style_for_irta irta flag = Raise (ValueError ("Invalid value for irta: " +:+ pretty irta))) /\
  (forall st, style_for_irta irta flag = Ok st -> (marker st <> None <-> flag = true)).
Proof.
  unfold irta2latextau, irta2s, style_for_irta.
  destruct (Z.eqb_spec irta 0) as [->|H0]; [|destruct (Z.eqb_spec irta 1) as [->|H1]];
    cbn [is_ok mbind result_bind].
  - split; [split; auto|]. split; [reflexivity|]. split; [destruct flag; reflexivity|].
    split; [discriminate|].
    intros st E. injection E as <-. destruct flag; cbn; split; congruence.
  - split; [split; auto|]. split; [reflexivity|]. split; [destruct flag; reflexivity|].
    split; [discriminate|].
    intros st E. injection E as <-. destruct flag; cbn; split; congruence.
  - split; [split; [discriminate|lia]|]. split; [reflexivity|]. split; [reflexivity|].
    split; [intros _; split; reflexivity|].
    intros st E. discriminate E.
Qed.

Lemma read_dim_ok (b : ETSF_Reader) (name : string) :
  isopen b = true ->
  iotools.read_dimvalue b name = of_option (SchemaError name) (dimensions (rootgrp b) !! name).
Proof. intros E. unfold iotools.read_dimvalue. rewrite E. reflexivity. Qed.

Lemma is_ok_of_option {A} (e : exn) (o : option A) : is_ok (of_option e o) = true <-> is_Some o.
Proof. destruct o; cbn; split; try discriminate; eauto. intros [? ?]. discriminate. Qed.

(** X3.  [RtaFile(path)] succeeds exactly when the file exists and holds the
    two dimensions and the six variables that the two constructors read;
    a path without a file is a [NotFoundError]. *)
Theorem RtaFile_init_ok_iff `{Units} (fs : gmap string Dataset) (path : string) :
  (is_ok (RtaFile_init fs path) = true <->
     exists ds, fs !! path = Some ds /\
       is_Some (dimensions ds !! "nsppol") /\ is_Some (variables ds !! "kTmesh") /\
       is_Some (dimensions ds !! "nrta") /\ is_Some (variables ds !! "vb_max") /\
       is_Some (variables ds !! "cb_min") /\ is_Some (int_variables ds !! "edos_intmeth") /\
       is_Some (variables ds !! "edos_broad") /\ is_Some (variables ds !! "edos_mesh")) /\
  (fs !! path = None -> RtaFile_init fs path = Raise NotFoundError).
Proof.
  unfold RtaFile_init, RtaReader_init, ETSF_Reader_init.
  destruct (fs !! path) as [ds|] eqn:Hfs; cbn [mbind result_bind].
  2:{ split; [|reflexivity]. cbn. split; [discriminate|]. intros (ds & E & _). discriminate E. }
  split; [|intros E; discriminate E].
  unfold read_dimvalue, read_value, read_value_int,
    iotools.read_dimvalue, iotools.read_value, iotools.read_value_int.
  cbn [isopen rootgrp base].
  destruct (dimensions ds !! "nsppol") as [?|] eqn:E1; cbn [of_option mbind result_bind is_ok isopen rootgrp base];
    [|split; [discriminate|]; intros (ds' & E & [? ?] & _); congruence].
  destruct (variables ds !! "kTmesh") as [?|] eqn:E2; cbn [of_option mbind result_bind is_ok isopen rootgrp base];
    [|split; [discriminate|]; intros (ds' & E & _ & [? ?] & _); congruence].
  destruct (dimensions ds !! "nrta") as [?|] eqn:E3; cbn [of_option mbind result_bind is_ok isopen rootgrp base];
    [|split; [discriminate|]; intros (ds' & E & _ & _ & [? ?] & _); congruence].
  destruct (variables ds !! "vb_max") as [?|] eqn:E4; cbn [of_option mbind result_bind is_ok isopen rootgrp base];
    [|split; [discriminate|]; intros (ds' & E & _ & _ & _ & [? ?] & _); congruence].
  destruct (variables ds !! "cb_min") as [?|] eqn:E5; cbn [of_option mbind result_bind is_ok isopen rootgrp base];
    [|split; [discriminate|]; intros (ds' & E & _ & _ & _ & _ & [? ?] & _); congruence].
  destruct (int_variables ds !! "edos_intmeth") as [?|] eqn:E6;
    cbn [of_option mbind result_bind is_ok isopen rootgrp base];
    [|split; [discriminate|]; intros (ds' & E & _ & _ & _ & _ & _ & [? ?] & _); congruence].
  destruct (variables ds !! "edos_broad") as [?|] eqn:E7; cbn [of_option mbind result_bind is_ok isopen rootgrp base];
    [|split; [discriminate|]; intros (ds' & E & _ & _ & _ & _ & _ & _ & [? ?] & _); congruence].
  destruct (variables ds !! "edos_mesh") as [?|] eqn:E8; cbn [of_option mbind result_bind is_ok isopen rootgrp base];
    [|split; [discriminate|]; intros (ds' & E & _ & _ & _ & _ & _ & _ & _ & [? ?]); congruence].
  split; [|reflexivity]. intros _. exists ds. repeat split; eauto.
Qed.

(** X4.  The object that [RtaFile(path)] returns is open on the file at
    [path]; [nrta] and [nsppol] are the dimensions of that file; the band
    edges, the broadening and the energy mesh are the stored arrays times
    [Ha_to_eV], and [edos_intmeth] is the stored one. *)
Theorem RtaFile_init_attributes `{Units} (fs : gmap string Dataset) (path : string) (f : RtaFile) :
  RtaFile_init fs path = Ok f ->
  is_open f = true /\ filepath f = path /\
  fs !! path = Some (rootgrp (base (reader f))) /\
  dimensions (rootgrp (base (reader f))) !! "nrta" = Some (nrta f) /\
  dimensions (rootgrp (base (reader f))) !! "nsppol" = Some (nsppol (reader f)) /\
  to_eV <$> variables (rootgrp (base (reader f))) !! "edos_mesh" = Some (edos_mesh_eV f) /\
  to_eV <$> variables (rootgrp (base (reader f))) !! "vb_max" = Some (vb_max_spin f) /\
  to_eV <$> variables (rootgrp (base (reader f))) !! "cb_min" = Some (cb_min_spin f) /\
  to_eV <$> variables (rootgrp (base (reader f))) !! "edos_broad" = Some (edos_broad_eV f) /\
  int_variables (rootgrp (base (reader f))) !! "edos_intmeth" = Some (edos_intmeth f).
Proof.
  unfold RtaFile_init, RtaReader_init, ETSF_Reader_init.
  destruct (fs !! path) as [ds|] eqn:Hfs; cbn [mbind result_bind]; [|discriminate].
  unfold read_dimvalue, read_value, read_value_int,
    iotools.read_dimvalue, iotools.read_value, iotools.read_value_int.
  cbn [isopen rootgrp base].
  destruct (dimensions ds !! "nsppol") as [?|] eqn:E1;
    cbn [of_option mbind result_bind isopen rootgrp base]; [|discriminate].
  destruct (variables ds !! "kTmesh") as [?|] eqn:E2;
    cbn [of_option mbind result_bind isopen rootgrp base]; [|discriminate].
  destruct (dimensions ds !! "nrta") as [?|] eqn:E3;
    cbn [of_option mbind result_bind isopen rootgrp base]; [|discriminate].
  destruct (variables ds !! "vb_max") as [?|] eqn:E4;
    cbn [of_option mbind result_bind isopen rootgrp base]; [|discriminate].
  destruct (variables ds !! "cb_min") as [?|] eqn:E5;
    cbn [of_option mbind result_bind isopen rootgrp base]; [|discriminate].
  destruct (int_variables ds !! "edos_intmeth") as [?|] eqn:E6;
    cbn [of_option mbind result_bind isopen rootgrp base]; [|discriminate].
  destruct (variables ds !! "edos_broad") as [?|] eqn:E7;
    cbn [of_option mbind result_bind isopen rootgrp base]; [|discriminate].
  destruct (variables ds !! "edos_mesh") as [?|] eqn:E8;
    cbn [of_option mbind result_bind isopen rootgrp base]; [|discriminate].
  intros E. injection E as <-. unfold is_open.
  cbn [reader base rootgrp isopen filepath nrta nsppol edos_mesh_eV vb_max_spin cb_min_spin
       edos_broad_eV edos_intmeth].
  rewrite E3, E1, E8, E4, E5, E7, E6. repeat split; reflexivity.
Qed.

Lemma RtaFile_init_attributes_k8 :
  is_open samples.k8 = true /\ filepath samples.k8 = "k8_RTA.nc" /\
  samples.fs !! "k8_RTA.nc" = Some (rootgrp (base (reader samples.k8))) /\
  dimensions (rootgrp (base (reader samples.k8))) !! "nrta" = Some (nrta samples.k8) /\
  dimensions (rootgrp (base (reader samples.k8))) !! "nsppol" = Some (nsppol (reader samples.k8)) /\
  to_eV (H := samples.units) <$> variables (rootgrp (base (reader samples.k8))) !! "edos_mesh"
    = Some (edos_mesh_eV samples.k8) /\
  to_eV (H := samples.units) <$> variables (rootgrp (base (reader samples.k8))) !! "vb_max"
    = Some (vb_max_spin samples.k8) /\
  to_eV (H := samples.units) <$> variables (rootgrp (base (reader samples.k8))) !! "cb_min"
    = Some (cb_min_spin samples.k8) /\
  to_eV (H := samples.units) <$> variables (rootgrp (base (reader samples.k8))) !! "edos_broad"
    = Some (edos_broad_eV samples.k8) /\
  int_variables (rootgrp (base (reader samples.k8))) !! "edos_intmeth"
    = Some (edos_intmeth samples.k8).
Proof.
  apply (RtaFile_init_attributes (H := samples.units) samples.fs "k8_RTA.nc" samples.k8).
  vm_compute. reflexivity.
Defined.

(** *** Subscripts outside the axes *)

Lemma index_inside {A} (l : list A) (k : Z) :
  - Z.of_nat (length l) <= k < Z.of_nat (length l) ->
  exists a, Py.index l k = Ok a /\ a ∈ l.
Proof.
  intros Hk. unfold Py.index.
  set (k' := if k <? 0 then k + Z.of_nat (length l) else k).
  assert (Hk' : 0 <= k' < Z.of_nat (length l)).
  { unfold k'. destruct (Z.ltb_spec k 0); lia. }
  destruct (Z.leb_spec 0 k') as [_|?]; [|lia].
  destruct (Z.ltb_spec k' (Z.of_nat (length l))) as [_|?]; [|lia]. cbn [andb].
  destruct (lookup_lt_is_Some_2 l (Z.to_nat k')) as [a Ha]; [lia|].
  exists a. rewrite Ha. split; [reflexivity|]. eapply list_elem_of_lookup_2, Ha.
Qed.

Lemma index_outside {A} (l : list A) (k : Z) :
  ~ (- Z.of_nat (length l) <= k < Z.of_nat (length l)) ->
  Py.index l k = Raise IndexError.
Proof.
  intros Hk. unfold Py.index.
  set (k' := if k <? 0 then k + Z.of_nat (length l) else k).
  assert (Hk' : ~ (0 <= k' < Z.of_nat (length l))).
  { unfold k'. destruct (Z.ltb_spec k 0); lia. }
  destruct (Z.leb_spec 0 k'); destruct (Z.ltb_spec k' (Z.of_nat (length l)));
    cbn [andb]; try reflexivity. lia.
Qed.

Lemma getitem_subscripts {A} (dims : list nat) (n : nat) :
  forall (a : ndarray A) (ks : list Z),
    has_shape (dims ++ [n]) a = true ->
    length ks = length dims ->
    (Forall2 (fun k d => - Z.of_nat d <= k < Z.of_nat d) ks dims ->
       exists xs, getitem a ((At <$> ks) ++ [All]) = Ok (vector xs) /\ length xs = n) /\
    (~ Forall2 (fun k d => - Z.of_nat d <= k < Z.of_nat d) ks dims ->
       getitem a ((At <$> ks) ++ [All]) = Raise IndexError).
Proof.
  induction dims as [|d dims IH]; intros a ks Hs Hlen.
  - destruct ks; [|discriminate Hlen]. split.
    + intros _. cbn [app] in Hs. destruct (has_shape_vector n a Hs) as (xs & -> & Hn).
      exists xs. split; [apply getitem_all_vector|exact Hn].
    + intros Hno. destruct Hno. constructor.
  - destruct ks as [|k ks]; [discriminate Hlen|]. injection Hlen as Hlen.
    change ((d :: dims) ++ [n]) with (d :: (dims ++ [n])) in Hs.
    destruct (has_shape_cons _ _ _ Hs) as (l & -> & Hl & Hall). subst d.
    cbn [fmap list_fmap app getitem].
    destruct (decide (- Z.of_nat (length l) <= k < Z.of_nat (length l))) as [Hk|Hk].
    + destruct (index_inside l k Hk) as (a' & Hidx & Hin). rewrite Hidx.
      cbn [mbind result_bind].
      assert (Ha' : has_shape (dims ++ [n]) a' = true).
      { eapply Forall_forall in Hall; [exact Hall|exact Hin]. }
      destruct (IH a' ks Ha' Hlen) as [Hyes Hno]. split.
      * intros H2. apply Forall2_cons_1 in H2 as [_ H2]. exact (Hyes H2).
      * intros H2. apply Hno. intros H3. apply H2. constructor; assumption.
    + rewrite (index_outside l k Hk). cbn [mbind result_bind]. split; [|reflexivity].
      intros H2. apply Forall2_cons_1 in H2 as [H2 _]. contradiction.
Qed.

(** X5.  On an open file that follows the schema and for a valid component
    label, [read_mobility] succeeds when each of [irta], [spin], [eh],
    [itemp] lies in [-d, d) for the size [d] of its axis (a negative
    subscript counts from the end), and raises [IndexError] when one of
    them does not. *)
Theorem read_mobility_subscripts (r : RtaReader) (n_rta n_sppol n_temp n_w : nat)
    (eh itemp spin irta i j : Z) (component : string) :
  isopen (base r) = true ->
  schema (rootgrp (base r)) n_rta n_sppol n_temp n_w ->
  s2itup component = Ok (i, j) ->
  ((- Z.of_nat n_rta <= irta < Z.of_nat n_rta /\ - Z.of_nat n_sppol <= spin < Z.of_nat n_sppol /\
    -2 <= eh < 2 /\ - Z.of_nat n_temp <= itemp < Z.of_nat n_temp) ->
   exists wvals slice,
     read_mobility r eh itemp component spin irta = Ok (wvals, vector slice) /\
     length slice = n_w) /\
  (~ (- Z.of_nat n_rta <= irta < Z.of_nat n_rta /\ - Z.of_nat n_sppol <= spin < Z.of_nat n_sppol /\
      -2 <= eh < 2 /\ - Z.of_nat n_temp <= itemp < Z.of_nat n_temp) ->
   read_mobility r eh itemp component spin irta = Raise IndexError).
Proof.
  intros Ho [(wvals & Hm & Hms) (var & Hv & Hvs)] Hc.
  destruct (s2itup_range _ _ _ Hc) as [Hi Hj].
  destruct (getitem_subscripts [n_rta; n_sppol; 2; n_temp; 3; 3]%nat n_w var
              [irta; spin; eh; itemp; j; i] Hvs eq_refl) as [Hyes Hno].
  cbn [fmap list_fmap app] in Hyes, Hno.
  assert (Hread : read_mobility r eh itemp component spin irta =
                  mobility ← getitem var [At irta; At spin; At eh; At itemp; At j; At i; All];
                  Ok (wvals, mobility)).
  { unfold read_mobility. rewrite Hc. cbn [mbind result_bind].
    rewrite (read_variable_open r _ _ Ho Hm), (read_variable_open r _ _ Ho Hv). reflexivity. }
  rewrite Hread. split.
  - intros (H1 & H2 & H3 & H4).
    destruct Hyes as (xs & Hget & Hn); [repeat constructor; lia|].
    exists wvals, xs. rewrite Hget. split; [reflexivity|exact Hn].
  - intros Hout. rewrite Hno; [reflexivity|].
    intros H2. apply Hout.
    repeat match goal with
           | H : Forall2 _ (_ :: _) (_ :: _) |- _ => apply Forall2_cons_1 in H as [? H]
           end.
    cbn in *. repeat split; lia.
Qed.

Lemma read_mobility_subscripts_k8 :
  ((- Z.of_nat 2 <= 5 < Z.of_nat 2 /\ - Z.of_nat 1 <= 0 < Z.of_nat 1 /\
    -2 <= -1 < 2 /\ - Z.of_nat 3 <= -3 < Z.of_nat 3) ->
   exists wvals slice,
     read_mobility (reader samples.k8) (-1) (-3) "zx" 0 5 = Ok (wvals, vector slice) /\
     length slice = 4%nat) /\
  (~ (- Z.of_nat 2 <= 5 < Z.of_nat 2 /\ - Z.of_nat 1 <= 0 < Z.of_nat 1 /\
      -2 <= -1 < 2 /\ - Z.of_nat 3 <= -3 < Z.of_nat 3) ->
   read_mobility (reader samples.k8) (-1) (-3) "zx" 0 5 = Raise IndexError).
Proof.
  apply (read_mobility_subscripts (reader samples.k8) 2 1 3 4 (-1) (-3) 0 5 2 0 "zx").
  - reflexivity.
  - apply sample_schema.
  - reflexivity.
Defined.

(** X6.  Without [ef], [get_mobility_mu] reads the stored chemical
    potential before anything else: on an open file it raises
    [SchemaError] when [transport_mu_e] is missing and [IndexError] when
    [itemp] is outside that array, whatever the other arguments are. *)
Theorem get_mobility_mu_default_errors (f : RtaFile) (eh itemp : Z) (component : string)
    (irta spin : Z) :
  is_open f = true ->
  (variables (rootgrp (base (reader f))) !! "transport_mu_e" = None ->
   get_mobility_mu f eh itemp component None irta spin = Raise (SchemaError "transport_mu_e")) /\
  (forall mu,
     variables (rootgrp (base (reader f))) !! "transport_mu_e" = Some (vector mu) ->
     ~ (- Z.of_nat (length mu) <= itemp < Z.of_nat (length mu)) ->
     get_mobility_mu f eh itemp component None irta spin = Raise IndexError).
Proof.
  unfold is_open. intros Ho. split.
  - intros Hnone. unfold get_mobility_mu, read_value, iotools.read_value.
    rewrite Ho, Hnone. reflexivity.
  - intros mu Hmu Hout. unfold get_mobility_mu, read_value, iotools.read_value.
    rewrite Ho, Hmu. cbn [of_option mbind result_bind]. unfold vector. cbn [getitem].
    rewrite index_outside; [reflexivity|]. rewrite length_fmap. exact Hout.
Qed.

Lemma get_mobility_mu_default_errors_k8 :
  (variables (rootgrp (base (reader samples.k8))) !! "transport_mu_e" = None ->
   get_mobility_mu samples.k8 0 3 "qq" None 0 0 = Raise (SchemaError "transport_mu_e")) /\
  (forall mu,
     variables (rootgrp (base (reader samples.k8))) !! "transport_mu_e" = Some (vector mu) ->
     ~ (- Z.of_nat (length mu) <= 3 < Z.of_nat (length mu)) ->
     get_mobility_mu samples.k8 0 3 "qq" None 0 0 = Raise IndexError).
Proof.
  apply (get_mobility_mu_default_errors samples.k8 0 3 "qq" 0 0). reflexivity.
Defined.

(** *** The figure of the robot *)

Lemma member_pair_row (eh itemp spin irta i j : Z) (ncfile : RtaFile) :
  member_pair eh itemp spin irta i j ncfile =
  (fun r => (kptrlattx r, mobility r)) <$> member_row eh itemp spin irta i j ncfile.
Proof.
  unfold member_pair, member_row.
  destruct (read_value_int (reader ncfile) "kptrlatt") as [k|]; cbn [mbind result_bind fmap result_fmap];
    [|reflexivity].
  destruct (getitem k [At 0; At 0] ≫= item) as [kx|]; cbn [mbind result_bind fmap result_fmap];
    [|reflexivity].
  destruct (getitem k [At 1; At 1] ≫= item) as [ky|]; cbn [mbind result_bind fmap result_fmap];
    [|reflexivity].
  destruct (getitem k [At 2; At 2] ≫= item) as [kz|]; cbn [mbind result_bind fmap result_fmap];
    [|reflexivity].
  destruct (read_variable (reader ncfile) "mobility_mu") as [v|];
    cbn [mbind result_bind fmap result_fmap]; [|reflexivity].
  destruct (getitem v [At irta; At spin; At itemp; At j; At i; At eh] ≫= item) as [mu|];
    reflexivity.
Qed.

Lemma for_each_fmap {A B C} (g : A -> result B) (h : B -> C) (xs : list A) :
  Py.for_each (fun x => fmap (M := result) h (g x)) xs
  = fmap (M := result) (fmap (M := list) h) (Py.for_each g xs).
Proof.
  induction xs as [|x xs IH]; [reflexivity|]. cbn [Py.for_each]. rewrite IH.
  destruct (g x) as [b|]; cbn; [|reflexivity].
  destruct (Py.for_each g xs); reflexivity.
Qed.

Lemma for_each_ext {A B} (g g' : A -> result B) (xs : list A) :
  (forall x, g x = g' x) -> Py.for_each g xs = Py.for_each g' xs.
Proof.
  intros E. induction xs as [|x xs IH]; [reflexivity|].
  cbn [Py.for_each]. rewrite E, IH. reflexivity.
Qed.

Lemma for_each_snoc {A B} (g : A -> result B) (xs : list A) (x : A) (bs : list B) :
  Py.for_each g (xs ++ [x]) = Ok bs ->
  exists bs' b, Py.for_each g xs = Ok bs' /\ g x = Ok b /\ bs = bs' ++ [b].
Proof.
  revert bs. induction xs as [|a xs IH]; intros bs; cbn [app Py.for_each].
  - destruct (g x) as [b|]; cbn; [|discriminate]. intros E. injection E as <-.
    exists [], b. repeat split; reflexivity.
  - destruct (g a) as [b0|]; cbn [mbind result_bind]; [|discriminate].
    destruct (Py.for_each g (xs ++ [x])) as [bs0|] eqn:E0; cbn [mbind result_bind]; [|discriminate].
    intros E. injection E as <-.
    destruct (IH bs0 eq_refl) as (bs' & b & -> & Hx & ->).
    exists (b0 :: bs'), b. cbn [mbind result_bind].
    split; [reflexivity|]. split; [exact Hx|reflexivity].
Qed.



(** X8.  The axis labels of the figure are those of the last file of the
    robot alone: when the robot with the files [before] followed by [f]
    gets a figure, the robot that holds only [f] gets one with the same
    two labels. *)
Theorem plot_mobility_conv_labels_of_last (before : list RtaFile) (f : RtaFile) (eh : Z)
    (component : string) (itemp spin : Z) (fig : figure) :
  plot_mobility_conv (before ++ [f]) eh component itemp spin = Return fig ->
  exists fig', plot_mobility_conv [f] eh component itemp spin = Return fig' /\
               xlabel fig' = xlabel fig /\ ylabel fig' = ylabel fig.
Proof.
  unfold plot_mobility_conv.
  destruct (s2itup component) as [[i j]|]; cbn [lift mbind outcome_bind result_bind]; [|discriminate].
  destruct (Py.for_each (member_row eh itemp spin 0 i j) (before ++ [f])) as [rows|] eqn:Erows;
    cbn [lift mbind outcome_bind]; [|discriminate].
  destruct (for_each_snoc _ _ _ _ Erows) as (rows' & r & _ & Hr & ->).
  cbn [Py.for_each]. rewrite Hr. cbn [lift mbind outcome_bind result_bind].
  rewrite last_snoc. change (last [r]) with (Some r).
  destruct (if eh =? 0 then Return "Electron mobility (cm$^2$/(V$\cdot$s))"
            else if eh =? 1 then Return "Hole mobility (cm$^2$/(V$\cdot$s))"
            else Throw (Base (ValueError ("Invalid value for `eh` argument: " +:+ pretty eh))))
    as [yl|]; cbn [mbind outcome_bind]; [|discriminate].
  destruct (Fraction_init (kptrlatty r) (kptrlattx r)); cbn [mbind outcome_bind]; [|discriminate].
  destruct (Fraction_init (kptrlattz r) (kptrlattx r)); cbn [mbind outcome_bind]; [|discriminate].
  intros E. injection E as <-. eexists. split; [reflexivity|]. split; reflexivity.
Qed.

Lemma plot_mobility_conv_labels_of_last_sample :
  exists fig', plot_mobility_conv [samples.k4] 0 "xx" 0 0 = Return fig' /\
    xlabel fig' = "Homogeneous $N_k \times$ $N_k \times$ $N_k$ $\mathbf{k}$-point grid" /\
    ylabel fig' = "Electron mobility (cm$^2$/(V$\cdot$s))".
Proof.
  apply (plot_mobility_conv_labels_of_last [samples.k8] samples.k4 0 "xx" 0 0
           {| ylabel := "Electron mobility (cm$^2$/(V$\cdot$s))";
              xlabel := "Homogeneous $N_k \times$ $N_k \times$ $N_k$ $\mathbf{k}$-point grid";
              points := [(4, 1000000%float); (8, 0%float)] |}).
  vm_compute. reflexivity.
Defined.

End rta_extra.

(** ** Further properties of the lessons helper *)

Module lessons_extra.
Import lessons lessons_io Pystr lessons_facts.

Lemma load_vars_snoc (vs : list variable) (v : variable) :
  all_vars (load_vars (vs ++ [v])) = <[varname v := v]> (all_vars (load_vars vs)).
Proof. unfold load_vars. cbn [all_vars]. rewrite foldl_app. reflexivity. Qed.

(** The dictionary holds, under a name, the last entry of the file with
    that name. *)
Lemma load_vars_lookup (vs : list variable) (name : string) :
  all_vars (load_vars vs) !! name = last (filter (fun v => varname v = name) vs).
Proof.
  induction vs as [|v vs IH] using rev_ind; [reflexivity|].
  rewrite load_vars_snoc, filter_app.
  destruct (decide (varname v = name)) as [E|E].
  - rewrite E, lookup_insert_eq.
    rewrite (filter_cons_True _ v []) by exact E. rewrite filter_nil, last_snoc. reflexivity.
  - rewrite lookup_insert_ne by exact E.
    rewrite (filter_cons_False _ v []) by exact E. rewrite filter_nil, app_nil_r. exact IH.
Qed.

Lemma NoDup_fmap_eq {A B} (g : A -> B) (l : list A) (x y : A) :
  NoDup (g <$> l) -> x ∈ l -> y ∈ l -> g x = g y -> x = y.
Proof.
  induction l as [|a l IH]; intros Hnd Hx Hy E; [inversion Hx|].
  rewrite fmap_cons in Hnd. apply NoDup_cons in Hnd as [Hna Hnd].
  apply elem_of_cons in Hx as [->|Hx]; apply elem_of_cons in Hy as [->|Hy].
  - reflexivity.
  - destruct Hna. rewrite E. apply list_elem_of_fmap_2, Hy.
  - destruct Hna. rewrite <- E. apply list_elem_of_fmap_2, Hx.
  - exact (IH Hnd Hx Hy E).
Qed.

Lemma get_var_membership (vs : list variable) (name : string) :
  (name ∈ varname <$> vs -> is_ok (get_var (load_vars vs) name) = true) /\
  (name ∉ varname <$> vs -> get_var (load_vars vs) name = Raise (KeyError name)).
Proof.
  split.
  - intros Hin. apply list_elem_of_fmap in Hin as (v & -> & Hv).
    unfold get_var. rewrite load_vars_lookup.
    destruct (last (filter (fun v0 => varname v0 = varname v) vs)) as [v'|] eqn:El; [reflexivity|].
    apply last_None in El.
    assert (Hin : v ∈ filter (fun v0 => varname v0 = varname v) vs).
    { apply list_elem_of_filter. split; [reflexivity|exact Hv]. }
    rewrite El in Hin. inversion Hin.
  - intros Hnot. unfold get_var. rewrite load_vars_lookup.
    destruct (last (filter (fun v0 => varname v0 = name) vs)) as [v'|] eqn:El; [|reflexivity].
    apply last_Some in El as [l' El].
    assert (Hin : v' ∈ filter (fun v0 => varname v0 = name) vs).
    { rewrite El. apply elem_of_app. right. left. }
    apply list_elem_of_filter in Hin as [<- Hin]. destruct Hnot.
    apply list_elem_of_fmap_2, Hin.
Qed.

(** X9.  After [load_vars], [get_var] finds under a name an entry of the
    file that bears that name; every name of the file is found; a name that
    is not in the file raises [KeyError]; and when no name occurs twice,
    each entry is found under its own name. *)
Theorem get_var_load_vars (vs : list variable) (name : string) :
  (forall v, get_var (load_vars vs) name = Ok v -> varname v = name /\ v ∈ vs) /\
  (name ∉ varname <$> vs -> get_var (load_vars vs) name = Raise (KeyError name)) /\
  (name ∈ varname <$> vs -> is_ok (get_var (load_vars vs) name) = true) /\
  (NoDup (varname <$> vs) ->
   forall v, v ∈ vs -> get_var (load_vars vs) (varname v) = Ok v).
Proof.
  assert (Hfound : forall n v, get_var (load_vars vs) n = Ok v -> varname v = n /\ v ∈ vs).
  { intros n v. unfold get_var. rewrite load_vars_lookup.
    destruct (last (filter (fun v0 => varname v0 = n) vs)) as [v'|] eqn:El; [|discriminate].
    intros E. injection E as <-. apply last_Some in El as [l' El].
    assert (Hin : v' ∈ filter (fun v0 => varname v0 = n) vs).
    { rewrite El. apply elem_of_app. right. left. }
    apply list_elem_of_filter in Hin. exact Hin. }
  assert (Hall : forall v, v ∈ vs -> is_ok (get_var (load_vars vs) (varname v)) = true).
  { intros v Hv. unfold get_var. rewrite load_vars_lookup.
    destruct (last (filter (fun v0 => varname v0 = varname v) vs)) as [v'|] eqn:El; [reflexivity|].
    apply last_None in El.
    assert (Hin : v ∈ filter (fun v0 => varname v0 = varname v) vs).
    { apply list_elem_of_filter. split; [reflexivity|exact Hv]. }
    rewrite El in Hin. inversion Hin. }
  split; [exact (Hfound name)|]. split; [|split].
  - apply get_var_membership.
  - intros Hin. apply list_elem_of_fmap in Hin as (v & -> & Hv). exact (Hall v Hv).
  - intros Hnd v Hv. specialize (Hall v Hv).
    destruct (get_var (load_vars vs) (varname v)) as [v'|] eqn:E; [|discriminate Hall].
    destruct (Hfound _ _ E) as [En Hin'].
    f_equal. exact (NoDup_fmap_eq varname vs v' v Hnd Hin' Hv En).
Qed.

(** X10.  While [abinit_vars.yml] cannot be loaded, nothing is cached: each
    call of [get_abinit_variables], and [abinit_help] with it, fails in the
    same way and leaves the process as it was, the global still [None]. *)
Theorem failed_load_is_not_cached (html2text : string -> string) (p : process) (n : nat)
    (name : string) :
  VARS_DATABASE p = None ->
  abinit_vars_yml p = None ->
  get_abinit_variables p = (Raise NotFoundError, p) /\
  calls n p = (replicate n (Raise NotFoundError), p) /\
  abinit_help html2text name p = (Raise NotFoundError, p).
Proof.
  intros Hv Hy.
  assert (E : get_abinit_variables p = (Raise NotFoundError, p)).
  { unfold get_abinit_variables, VariableDatabase_init. rewrite Hv, Hy. reflexivity. }
  split; [exact E|]. split.
  - induction n as [|n IH]; [reflexivity|]. cbn [calls]. rewrite E, IH. reflexivity.
  - unfold abinit_help. rewrite E. reflexivity.
Qed.

Lemma failed_load_is_not_cached_sample :
  get_abinit_variables (imported None) = (Raise NotFoundError, imported None) /\
  calls 2 (imported None) = (replicate 2 (Raise NotFoundError), imported None) /\
  abinit_help (fun s => s) "ecut" (imported None) = (Raise NotFoundError, imported None).
Proof.
  apply (failed_load_is_not_cached (fun s => s) (imported None) 2 "ecut"); reflexivity.
Defined.

(** X11.  With a loadable [abinit_vars.yml] and nothing cached yet,
    [abinit_help] constructs the database once and leaves it cached; for a
    documented variable it prints one text, for any other name it raises
    [KeyError] and prints nothing; asked again, it answers the same and
    constructs nothing more. *)
Theorem abinit_help_outcome (html2text : string -> string) (p : process)
    (vs : list variable) (name : string) :
  VARS_DATABASE p = None ->
  abinit_vars_yml p = Some vs ->
  exists out p',
    abinit_help html2text name p = (out, p') /\
    heap p' = heap p ++ [load_vars vs] /\
    VARS_DATABASE p' = Some (length (heap p)) /\
    (name ∈ varname <$> vs -> exists line, out = Ok [line]) /\
    (name ∉ varname <$> vs -> out = Raise (KeyError name)) /\
    abinit_help html2text name p' = (out, p').
Proof.
  intros Hv Hy.
  set (p1 := {| abinit_vars_yml := Some vs; heap := heap p ++ [load_vars vs];
                VARS_DATABASE := Some (length (heap p)) |}).
  assert (Hget : get_abinit_variables p = (Ok (length (heap p)), p1)).
  { unfold get_abinit_variables, VariableDatabase_init. rewrite Hv, Hy. reflexivity. }
  assert (Hget' : get_abinit_variables p1 = (Ok (length (heap p)), p1)) by reflexivity.
  assert (Hd : deref p1 (length (heap p)) = load_vars vs).
  { unfold deref, p1. cbn [heap]. rewrite lookup_app_r by lia.
    rewrite Nat.sub_diag. reflexivity. }
  destruct (get_var_membership vs name) as [Hin Hout].
  assert (Hsame : abinit_help html2text name p = abinit_help html2text name p1).
  { unfold abinit_help. rewrite Hget, Hget'. reflexivity. }
  assert (Hrun : abinit_help html2text name p1 =
                 (match get_var (load_vars vs) name with
                  | Ok var =>
                      Ok [replace "]]" bold_off
                            (replace "[[" bold_on
                               (html2text ("<h2>Default value : </h2>" +:+ defaultval var
                                           +:+ "<br /><h2>Description</h2>" +:+ lessons.text var)))]
                  | Raise e => Raise e
                  end, p1)).
  { unfold abinit_help. rewrite Hget', Hd. destruct (get_var (load_vars vs) name); reflexivity. }
  eexists _, p1. split; [rewrite Hsame; exact Hrun|].
  split; [reflexivity|]. split; [reflexivity|]. split; [|split; [|exact Hrun]].
  - intros Hi. specialize (Hin Hi).
    destruct (get_var (load_vars vs) name); [eexists; reflexivity|discriminate Hin].
  - intros Hnot. rewrite (Hout Hnot). reflexivity.
Qed.

Lemma abinit_help_outcome_sample :
  exists out p',
    abinit_help (fun s => s) "ecut"
      (imported (Some [{| varname := "ecut"; defaultval := "None"; text := "[[ecut]]" |}]))
      = (out, p') /\
    heap p' = [] ++ [load_vars [{| varname := "ecut"; defaultval := "None"; text := "[[ecut]]" |}]] /\
    VARS_DATABASE p' = Some (length (@nil VariableDatabase)) /\
    ("ecut" ∈ varname <$> [{| varname := "ecut"; defaultval := "None"; text := "[[ecut]]" |}] ->
       exists line, out = Ok [line]) /\
    ("ecut" ∉ varname <$> [{| varname := "ecut"; defaultval := "None"; text := "[[ecut]]" |}] ->
       out = Raise (KeyError "ecut")) /\
    abinit_help (fun s => s) "ecut" p' = (out, p').
Proof.
  apply (abinit_help_outcome (fun s => s)
           (imported (Some [{| varname := "ecut"; defaultval := "None"; text := "[[ecut]]" |}]))).
  - reflexivity.
  - reflexivity.
Defined.

(** X12.  [get_local_copy] never touches a file that exists: it either
    raises and changes nothing ([RuntimeError] when the working directory
    already has a file named like the script, [IOError] when the script
    itself is missing), or adds exactly one file, named like the script and
    with the content of the script. *)
Theorem get_local_copy_never_overwrites (file_ : string) (fs : gmap string string) :
  let src := drop_last file_ in
  let dst := basename src in
  let out := fst (get_local_copy file_ fs) in
  let fs' := snd (get_local_copy file_ fs) in
  (forall name, is_Some (fs !! name) -> fs' !! name = fs !! name) /\
  (is_Some (fs !! dst) ->
     fs' = fs /\
     out = Throw (RuntimeError ("file " +:+ dst
             +:+ " already exists. Remove it before calling get_local_copy"))) /\
  (fs !! dst = None -> fs !! src = None -> fs' = fs /\ out = Throw (IOError src)) /\
  (out = Return tt <->
     fs !! dst = None /\ is_Some (fs !! src)) /\
  (out = Return tt ->
     fs' !! dst = fs !! src /\ forall name, name <> dst -> fs' !! name = fs !! name).
Proof.
  cbn zeta. unfold get_local_copy.
  destruct (fs !! basename (drop_last file_)) as [old|] eqn:Ed.
  - cbn [fst snd]. split; [|split; [|split; [|split]]].
    + reflexivity.
    + intros _. split; reflexivity.
    + intros E. discriminate E.
    + split; [discriminate|]. intros [E _]. discriminate E.
    + discriminate.
  - destruct (fs !! drop_last file_) as [content|] eqn:Es; cbn [fst snd].
    + split; [|split; [|split; [|split]]].
      * intros name [x Hx]. apply lookup_insert_ne. intros <-. congruence.
      * intros [? E]. discriminate E.
      * intros _ E. discriminate E.
      * split; [intros _; split; [reflexivity|eauto]|reflexivity].
      * intros _. split; [apply lookup_insert_eq|].
        intros name Hne. apply lookup_insert_ne. congruence.
    + split; [|split; [|split; [|split]]]; try reflexivity.
      * intros [? E]. discriminate E.
      * intros _ _. split; reflexivity.
      * split; [discriminate|]. intros [_ [? E]]. discriminate E.
      * discriminate.
Qed.

End lessons_extra.

(** ** Further properties of the benchmarks *)

Module benchmarks_extra.
Import benchmarks benchmark_flow Pystr.

(** X13.  [accept_mpi_omp] prints one line when it rejects and nothing
    when it accepts. *)
Theorem accept_mpi_omp_prints (opts : options) (mpi_procs omp_threads : Z) :
  (fst (accept_mpi_omp opts mpi_procs omp_threads) = true <->
     snd (accept_mpi_omp opts mpi_procs omp_threads) = []) /\
  (fst (accept_mpi_omp opts mpi_procs omp_threads) = false <->
     length (snd (accept_mpi_omp opts mpi_procs omp_threads)) = 1%nat).
Proof.
  unfold accept_mpi_omp.
  destruct (mpi_procs * omp_threads <? min_ncpus opts); [cbn; repeat split; discriminate|].
  destruct (max_ncpus opts) as [mx|]; [destruct (mx <? mpi_procs * omp_threads)|];
    cbn; repeat split; discriminate.
Qed.

Lemma has_slash_basename (p : string) : has_slash (basename p) = false.
Proof.
  induction p as [|c p IH]; [reflexivity|]. cbn [basename].
  destruct (has_slash (String c p)) eqn:E; [exact IH|exact E].
Qed.

Lemma has_slash_replace_empty (old : string) (s : string) :
  forall skip, has_slash s = false -> has_slash (replace_from old "" skip s) = false.
Proof.
  induction s as [|c s IH]; intros skip Hs; [reflexivity|].
  cbn [has_slash] in Hs. apply orb_false_iff in Hs as [Hc Hs].
  cbn [replace_from]. destruct skip as [|n]; [|exact (IH n Hs)].
  destruct (String.prefix old (String c s)).
  - cbn [String.app]. exact (IH _ Hs).
  - cbn [has_slash]. rewrite Hc. exact (IH 0%nat Hs).
Qed.


(** *** The benchmark flow *)

Lemma exclude_nodeids_spec (f : BenchmarkFlow) :
  fst (exclude_nodeids f) = excluded f /\
  excluded (snd (exclude_nodeids f)) = excluded f /\
  works (snd (exclude_nodeids f)) = works f /\
  snd (exclude_nodeids (snd (exclude_nodeids f))) = snd (exclude_nodeids f).
Proof.
  unfold exclude_nodeids, excluded. destruct f as [ws [s|]]; cbn; repeat split; reflexivity.
Qed.

Lemma gather_nids_spec (ts : list Task) :
  forall (f : BenchmarkFlow) (acc : list nat),
    gather_nids ts f acc =
    (acc ++ (node_id <$> filter (fun t => (node_id t ∉ excluded f) /\ status_ok t = true) ts),
     match ts with [] => f | _ :: _ => snd (exclude_nodeids f) end).
Proof.
  induction ts as [|t ts IH]; intros f acc.
  - cbn. rewrite app_nil_r. reflexivity.
  - cbn [gather_nids].
    destruct (exclude_nodeids_spec f) as (Hx & He & _ & Hidem).
    destruct (exclude_nodeids f) as [ex f1] eqn:Ef. cbn [fst snd] in Hx, He, Hidem. subst ex.
    assert (Hrest : forall acc', gather_nids ts f1 acc' =
              (acc' ++ (node_id <$> filter (fun t => (node_id t ∉ excluded f) /\ status_ok t = true) ts),
               f1)).
    { intros acc'. rewrite IH, He. f_equal. destruct ts; [reflexivity|exact Hidem]. }
    rewrite filter_cons.
    destruct (decide (node_id t ∈ excluded f)) as [Hin|Hnin].
    + rewrite Hrest. destruct (decide ((node_id t ∉ excluded f) /\ status_ok t = true)) as [[? _]|_];
        [contradiction|reflexivity].
    + destruct (status_ok t) eqn:Hok; cbn [negb].
      * rewrite Hrest. destruct (decide ((node_id t ∉ excluded f) /\ true = true)) as [_|Hno].
        -- rewrite fmap_cons, <- app_assoc. reflexivity.
        -- destruct Hno. split; [exact Hnin|reflexivity].
      * rewrite Hrest. destruct (decide ((node_id t ∉ excluded f) /\ false = true)) as [[_ ?]|_];
          [discriminate|reflexivity].
Qed.

Lemma nids_spec (f : BenchmarkFlow) :
  nids f = node_id <$> filter (fun t => (node_id t ∉ excluded f) /\ status_ok t = true) (iflat_tasks f).
Proof. unfold nids. rewrite gather_nids_spec. reflexivity. Qed.

(** X15.  [get_parser] hands to [parse_timing] the identifiers of the
    tasks of the flow, in the order of the flow, that are not excluded and
    whose status is [S_OK], and returns what [parse_timing] returns; it
    leaves the works and the excluded identifiers as they are; it prints
    nothing exactly when a parser came back with one section per
    identifier. *)
Theorem get_parser_analyses {parser : Type} (parse_timing : list nat -> option parser)
    (len : parser -> nat) (f : BenchmarkFlow) :
  let r := get_parser parse_timing len f in
  fst (fst r) = parse_timing (nids f) /\
  nids f = node_id <$> filter (fun t => (node_id t ∉ excluded f) /\ status_ok t = true)
                         (iflat_tasks f) /\
  works (snd r) = works f /\
  excluded (snd r) = excluded f /\
  (snd (fst r) = [] <->
     exists p, parse_timing (nids f) = Some p /\ len p = length (nids f)).
Proof.
  cbn zeta. unfold get_parser, nids.
  pose proof (gather_nids_spec (iflat_tasks f) f []) as Hg.
  destruct (gather_nids (iflat_tasks f) f []) as [ids f1] eqn:Eg.
  injection Hg as Hids Hf1. cbn [fst snd].
  destruct (exclude_nodeids_spec f) as (_ & He & Hw & _).
  split; [reflexivity|]. split; [exact Hids|].
  split; [rewrite Hf1; destruct (iflat_tasks f); [reflexivity|exact Hw]|].
  split; [rewrite Hf1; destruct (iflat_tasks f); [reflexivity|exact He]|].
  destruct (parse_timing ids) as [p|].
  - destruct (Nat.eqb_spec (len p) (length ids)) as [E|E]; cbn [negb].
    + split; [intros _; exists p; split; [reflexivity|exact E]|reflexivity].
    + split; [discriminate|]. intros (p' & Ep & E'). injection Ep as <-. contradiction.
  - split; [discriminate|]. intros (p' & Ep & _). discriminate Ep.
Qed.

Lemma foldl_union_ids (s : gset nat) (ts : list Task) :
  foldl (fun acc task => acc ∪ {[node_id task]}) s ts = s ∪ list_to_set (node_id <$> ts).
Proof.
  revert s. induction ts as [|t ts IH]; intros s; cbn [foldl fmap list_fmap list_to_set].
  - set_solver.
  - rewrite IH. set_solver.
Qed.

Lemma filter_excluded_more (s : gset nat) (ids : list nat) (ts : list Task) :
  node_id <$> filter (fun t => (node_id t ∉ s ∪ list_to_set ids) /\ status_ok t = true) ts
  = filter (fun id => id ∉ ids)
      (node_id <$> filter (fun t => (node_id t ∉ s) /\ status_ok t = true) ts).
Proof.
  induction ts as [|t ts IH]; [reflexivity|].
  rewrite !(filter_cons _ t).
  destruct (decide ((node_id t ∉ s ∪ list_to_set ids) /\ status_ok t = true)) as [[H1 H2]|Hno];
    destruct (decide ((node_id t ∉ s) /\ status_ok t = true)) as [[H3 H4]|Hno'].
  - rewrite !fmap_cons, filter_cons, IH.
    destruct (decide (node_id t ∉ ids)) as [_|Hn]; [reflexivity|].
    destruct Hn. set_solver.
  - destruct Hno'. split; [set_solver|exact H2].
  - rewrite fmap_cons, filter_cons, IH.
    destruct (decide (node_id t ∉ ids)) as [Hn|_]; [|reflexivity].
    destruct Hno. split; [set_solver|exact H4].
  - exact IH.
Qed.

(** X16.  [exclude_from_benchmark] adds to the excluded identifiers those
    of the tasks of a work, or the one of a task, and raises
    [AssertionError] for a node that is neither; the works of the flow stay
    as they are.  Afterwards [get_parser] analyses the tasks it analysed
    before except those of the node. *)
Theorem exclude_from_benchmark_effect (f : BenchmarkFlow) (node : Node) :
  let ids := match node with
             | WorkNode w => node_id <$> tasks w
             | TaskNode t => [node_id t]
             | OtherNode _ => []
             end in
  let out := fst (exclude_from_benchmark f node) in
  let f' := snd (exclude_from_benchmark f node) in
  works f' = works f /\
  excluded f' = excluded f ∪ list_to_set ids /\
  nids f' = filter (fun id => id ∉ ids) (nids f) /\
  (forall id, id ∈ ids -> id ∉ nids f') /\
  (out = match node with OtherNode _ => Throw AssertionError | _ => Return tt end).
Proof.
  cbn zeta.
  set (ids := match node with
              | WorkNode w => node_id <$> tasks w
              | TaskNode t => [node_id t]
              | OtherNode _ => []
              end).
  assert (Hw : works (snd (exclude_from_benchmark f node)) = works f).
  { unfold exclude_from_benchmark, exclude_nodeids.
    destruct f as [ws [s|]], node; reflexivity. }
  assert (He : excluded (snd (exclude_from_benchmark f node)) = excluded f ∪ list_to_set ids).
  { unfold exclude_from_benchmark, exclude_nodeids, excluded, ids.
    destruct f as [ws [s|]], node; cbn;
      rewrite ?foldl_union_ids; cbn [list_to_set]; set_solver. }
  assert (Hn : nids (snd (exclude_from_benchmark f node)) = filter (fun id => id ∉ ids) (nids f)).
  { rewrite !nids_spec, He. unfold iflat_tasks. rewrite Hw. apply filter_excluded_more. }
  split; [exact Hw|]. split; [exact He|]. split; [exact Hn|]. split.
  - intros id Hid. rewrite Hn. intros Hin. apply list_elem_of_filter in Hin as [Hno _].
    contradiction.
  - unfold exclude_from_benchmark, exclude_nodeids. destruct f as [ws [s|]], node; reflexivity.
Qed.

End benchmarks_extra.

(** ** The mobility plot of one file *)

Module rta_plot_extra.
Import np netcdf iotools abu rta np_facts rta_facts rta_helpers rta_plot.

Lemma getitem_ints {A} (dims : list nat) (n : nat) :
  forall (a : ndarray A) (ks : list Z),
    has_shape (dims ++ [n]) a = true ->
    Forall2 (fun k d => 0 <= k < Z.of_nat d) ks dims ->
    exists xs, getitem a (At <$> ks) = Ok (vector xs) /\
               getitem a ((At <$> ks) ++ [All]) = Ok (vector xs) /\
               length xs = n.
Proof.
  induction dims as [|d dims IH]; intros a ks Hs Hks.
  - inversion Hks; subst. cbn [app] in Hs.
    destruct (has_shape_vector n a Hs) as (xs & -> & Hlen).
    exists xs. split; [reflexivity|]. split; [apply getitem_all_vector|exact Hlen].
  - inversion Hks as [|k ? ks' ? Hk Hks']; subst.
    change ((d :: dims) ++ [n]) with (d :: (dims ++ [n])) in Hs.
    destruct (has_shape_cons _ _ _ Hs) as (l & -> & Hlen & Hall).
    destruct (index_in_range l k) as (a' & Hlook & Hidx); [lia|].
    assert (Ha' : has_shape (dims ++ [n]) a' = true).
    { eapply Forall_lookup_1 in Hall; [exact Hall|exact Hlook]. }
    destruct (IH a' ks' Ha' Hks') as (xs & Hget & Hget' & Hn).
    exists xs. cbn [fmap list_fmap app getitem]. rewrite Hidx. cbn [mbind result_bind].
    auto.
Qed.

Lemma for_each_total {A B} (g : A -> result B) (Q : A -> B -> Prop) (xs : list A) :
  (forall x, x ∈ xs -> exists b, g x = Ok b /\ Q x b) ->
  exists bs, Py.for_each g xs = Ok bs /\ Forall2 Q xs bs.
Proof.
  induction xs as [|x xs IH]; intros Hall.
  - exists []. split; [reflexivity|constructor].
  - destruct (Hall x) as (b & Hb & Hq); [left|].
    destruct IH as (bs & Hbs & Hf); [intros y Hy; apply Hall; right; exact Hy|].
    exists (b :: bs). cbn [Py.for_each]. rewrite Hb, Hbs. split; [reflexivity|].
    constructor; assumption.
Qed.

Lemma enumerate_from_lookup {A} (xs : list A) :
  forall k n, enumerate_from k xs !! n = (fun x => ((k + n)%nat, x)) <$> xs !! n.
Proof.
  induction xs as [|x xs IH]; intros k n; [reflexivity|].
  destruct n as [|n]; cbn [enumerate_from].
  - cbn. rewrite Nat.add_0_r. reflexivity.
  - change ((k, x) :: enumerate_from (S k) xs) with ([(k, x)] ++ enumerate_from (S k) xs).
    change (x :: xs) with ([x] ++ xs).
    rewrite !lookup_app_r by (cbn; lia). cbn [length]. rewrite Nat.sub_succ, Nat.sub_0_r.
    rewrite (IH (S k) n). destruct (xs !! n); cbn; repeat f_equal; lia.
Qed.

Lemma enumerate_from_length {A} (xs : list A) : forall k, length (enumerate_from k xs) = length xs.
Proof. induction xs as [|x xs IH]; intros k; cbn; [reflexivity|]. rewrite IH. reflexivity. Qed.

Lemma join_lookup_uniform {A} (n : nat) (rows : list (list A)) :
  Forall (fun row => length row = n) rows ->
  length (mjoin rows) = (length rows * n)%nat /\
  forall a b row c,
    rows !! a = Some row -> row !! b = Some c -> mjoin rows !! (a * n + b)%nat = Some c.
Proof.
  induction 1 as [|row0 rows Hrow Hrows [IHlen IH]].
  - split; [reflexivity|]. intros a b row c Ha. destruct a; discriminate Ha.
  - split.
    + change (mjoin (row0 :: rows)) with (row0 ++ mjoin rows).
      rewrite length_app, IHlen, Hrow. reflexivity.
    + intros a b row c Ha Hb. change (mjoin (row0 :: rows)) with (row0 ++ mjoin rows).
      destruct a as [|a].
      * injection Ha as <-. cbn [Nat.mul Nat.add]. rewrite lookup_app_l; [exact Hb|].
        eapply lookup_lt_Some, Hb.
      * cbn [lookup list_lookup] in Ha. rewrite lookup_app_r by lia.
        replace (S a * n + b - length row0)%nat with (a * n + b)%nat by lia.
        exact (IH a b row c Ha Hb).
Qed.



End rta_plot_extra.
